(** * GlimpseTech lead service: a shallow embedding of [app.py] and [enums.py]

    The development follows the two source files.

    - [enums.py]: the three enumerations, as inductive types that are
      instances of one [PyEnum] interface (member name, member value,
      lookup by name).
    - [app.py]: the two mapped classes and the association table as
      records and lists, the SQLAlchemy session as explicit state, the
      three routes and the authentication decorator as computations in a
      state-and-exception monad.

    What the source delegates to libraries is modelled as follows.

    - Text is a [string] of bytes and [str.upper] acts on the ASCII
      letters; [str.replace(" ", "_")] maps every space to an underscore.
    - [csv.DictReader] is not re-implemented: an upload is the list of
      row dictionaries it yields, each a finite map from column name to
      cell text.  A row shorter than the header, whose missing cells the
      reader fills with [None], is not modelled.
    - JSON request bodies are typed as the interface declares them
      (lists of strings, integers, optional keys).
    - werkzeug's password hashing is an interface ([PasswordScheme]);
      [check_password_hash] raises when the candidate password is [None],
      because it calls [password.encode()].
    - [Query.paginate] is Flask-SQLAlchemy 3.x, whose keyword-only
      arguments the call in the source uses, with its default
      [error_out=True] and no [max_per_page].
    - An unordered SELECT returns rows in table order, and a new row gets
      the key following the largest key of its table.  The relational
      engine's own column checks (integer coercion of [lead_id], length
      limits) are outside the model: the columns hold the text the handler
      passes.
    - The scoped session is discarded when the request ends, so what a
      request leaves behind is the committed database. *)

From Stdlib Require Import ZArith String Ascii List Bool Lia.
From stdpp Require Import gmap strings list.

Import ListNotations.
Local Open Scope string_scope.
Local Open Scope Z_scope.
Local Open Scope list_scope.

(** ** Python strings *)

Module Str.

(** [c.upper()] for one ASCII character. *)
Definition upper_ascii (c : ascii) : ascii :=
  let n := N_of_ascii c in
  if ((97 <=? n)%N && (n <=? 122)%N)%bool then ascii_of_N (n - 32) else c.

(** [s.upper()]. *)
Fixpoint upper (s : string) : string :=
  match s with
  | EmptyString => EmptyString
  | String c r => String (upper_ascii c) (upper r)
  end.

(** [s.replace(old, new)] for one-character [old] and [new]. *)
Fixpoint replace (old new : ascii) (s : string) : string :=
  match s with
  | EmptyString => EmptyString
  | String c r =>
      String (if Ascii.eqb c old then new else c) (replace old new r)
  end.

(** [c in s]. *)
Fixpoint has_char (c : ascii) (s : string) : bool :=
  match s with
  | EmptyString => false
  | String d r => Ascii.eqb d c || has_char c r
  end.

(** [s.startswith(p)]. *)
Fixpoint startswith (p s : string) : bool :=
  match p, s with
  | EmptyString, _ => true
  | String a p', String b s' => Ascii.eqb a b && startswith p' s'
  | String _ _, EmptyString => false
  end.

(** [needle in hay]. *)
Fixpoint contains (needle hay : string) : bool :=
  startswith needle hay ||
  match hay with
  | EmptyString => false
  | String _ r => contains needle r
  end.

(** [repr(s)] for text without quotes, backslashes or control
    characters: the text between single quotes. *)
Definition repr (s : string) : string := "'" +:+ s +:+ "'".

End Str.

(** ** Exceptions and results *)

(** The exceptions the handlers can meet.  [HTTPException] is werkzeug's,
    raised by [abort] and by a missing upload. *)
Inductive exn : Type :=
| KeyError (key : string)
| ValueError (msg : string)
| AttributeError (msg : string)
| UnicodeDecodeError (msg : string)
| HTTPException (code : Z) (name description : string).

(** [str(e)]. *)
Definition str_exn (e : exn) : string :=
  match e with
  | KeyError k => Str.repr k
  | ValueError m => m
  | AttributeError m => m
  | UnicodeDecodeError m => m
  | HTTPException c n d => n +:+ ": " +:+ d
  end.

Inductive Result (A : Type) : Type :=
| Ok (a : A)
| Raise (e : exn).
Arguments Ok {A} a.
Arguments Raise {A} e.

Definition is_ok {A} (r : Result A) : bool :=
  match r with Ok _ => true | Raise _ => false end.

(** [[f(x) for x in xs]], stopping at the first exception. *)
Fixpoint comprehension {A B} (f : A -> Result B) (xs : list A) : Result (list B) :=
  match xs with
  | [] => Ok []
  | x :: r =>
      match f x with
      | Raise e => Raise e
      | Ok y =>
          match comprehension f r with
          | Raise e => Raise e
          | Ok ys => Ok (y :: ys)
          end
      end
  end.

(** ** enums.py *)

Inductive Source : Type := COLD_CALL | EVENT | REFERRAL | WEBSITE.
Inductive InterestLevel : Type := HIGH | MEDIUM | LOW.
Inductive Status : Type := CLOSED | CONTACTED | NEW | QUALIFIED.

(** What the handlers use of an [enum.Enum] subclass: its [__name__], its
    members in definition order, and each member's [name] and [value]. *)
Class PyEnum (E : Type) : Type := {
  enum_name : string;
  members : list E;
  name : E -> string;
  value : E -> string;
  enum_eqb : E -> E -> bool
}.

#[export] Instance Source_enum : PyEnum Source := {|
  enum_name := "Source";
  members := [COLD_CALL; EVENT; REFERRAL; WEBSITE];
  name m := match m with
            | COLD_CALL => "COLD_CALL" | EVENT => "EVENT"
            | REFERRAL => "REFERRAL" | WEBSITE => "WEBSITE"
            end;
  value m := match m with
             | COLD_CALL => "Cold Call" | EVENT => "Event"
             | REFERRAL => "Referral" | WEBSITE => "Website"
             end;
  enum_eqb a b := match a, b with
                  | COLD_CALL, COLD_CALL | EVENT, EVENT
                  | REFERRAL, REFERRAL | WEBSITE, WEBSITE => true
                  | _, _ => false
                  end
|}.

#[export] Instance InterestLevel_enum : PyEnum InterestLevel := {|
  enum_name := "InterestLevel";
  members := [HIGH; MEDIUM; LOW];
  name m := match m with
            | HIGH => "HIGH" | MEDIUM => "MEDIUM" | LOW => "LOW"
            end;
  value m := match m with
             | HIGH => "High" | MEDIUM => "Medium" | LOW => "Low"
             end;
  enum_eqb a b := match a, b with
                  | HIGH, HIGH | MEDIUM, MEDIUM | LOW, LOW => true
                  | _, _ => false
                  end
|}.

#[export] Instance Status_enum : PyEnum Status := {|
  enum_name := "Status";
  members := [CLOSED; CONTACTED; NEW; QUALIFIED];
  name m := match m with
            | CLOSED => "CLOSED" | CONTACTED => "CONTACTED"
            | NEW => "NEW" | QUALIFIED => "QUALIFIED"
            end;
  value m := match m with
             | CLOSED => "Closed" | CONTACTED => "Contacted"
             | NEW => "New" | QUALIFIED => "Qualified"
             end;
  enum_eqb a b := match a, b with
                  | CLOSED, CLOSED | CONTACTED, CONTACTED
                  | NEW, NEW | QUALIFIED, QUALIFIED => true
                  | _, _ => false
                  end
|}.

(** [enum_eqb] decides equality of members. *)
Class PyEnumEq (E : Type) `{PyEnum E} : Prop :=
  enum_eqb_eq : forall a b : E, enum_eqb a b = true <-> a = b.

(** [enum[key]]: the member called [key], or [KeyError(key)]. *)
Definition getitem (E : Type) `{PyEnum E} (key : string) : Result E :=
  match List.find (fun m => String.eqb (name m) key) members with
  | Some m => Ok m
  | None => Raise (KeyError key)
  end.

(** [get_enum_value(enum, value)], app.py lines 141-145. *)
Definition get_enum_value (E : Type) `{PyEnum E} (value : string) : Result E :=
  match getitem E (Str.upper (Str.replace " " "_" value)) with
  | Ok m => Ok m
  | Raise (KeyError _) =>
      Raise (ValueError ("Invalid value for " +:+ enum_name +:+ ": " +:+ value))
  | Raise e => Raise e
  end.

(** The three lookups of the ingestion loop, app.py lines 116-118: only
    the Source text has its spaces replaced. *)
Definition ingest_source (text : string) : Result Source :=
  getitem Source (Str.upper (Str.replace " " "_" text)).

Definition ingest_interest_level (text : string) : Result InterestLevel :=
  getitem InterestLevel (Str.upper text).

Definition ingest_status (text : string) : Result Status :=
  getitem Status (Str.upper text).

(** The normalization as the specification words it, for all three
    columns: every space becomes an underscore, then uppercase. *)
Definition spec_normalize (text : string) : string :=
  Str.upper (Str.replace " " "_" text).

(** ** flask: JSON values and responses *)

#[local] Set Warnings "-register-all".

Inductive json : Type :=
| JInt (z : Z)
| JStr (s : string)
| JList (items : list json)
| JObj (fields : list (string * json)).

(** A view returns a body and a status code. *)
Definition Response : Type := json * Z.

(** [jsonify(dict)]. *)
Definition jsonify (fields : list (string * json)) : json := JObj fields.

(** [key in body], for a JSON object. *)
Definition has_field (key : string) (body : json) : bool :=
  match body with
  | JObj fields => existsb (fun kv => String.eqb (fst kv) key) fields
  | _ => false
  end.

(** Some top-level text of a JSON object contains [text]. *)
Definition mentions (text : string) (body : json) : bool :=
  match body with
  | JObj fields =>
      existsb (fun kv => match snd kv with
                         | JStr s => Str.contains text s
                         | _ => false
                         end) fields
  | _ => false
  end.

(** [request.authorization]: the fields are [None] when the header is not
    Basic or lacks them. *)
Record Authorization : Type := {
  auth_username : option string;
  auth_password : option string
}.

(** A request: the parsed Authorization header and the endpoint's payload
    (the uploaded files, or the JSON body). *)
Record Request (B : Type) : Type := {
  authorization : option Authorization;
  payload : B
}.
Arguments authorization {B} _.
Arguments payload {B} _.

(** [not x] for an optional text: [None] and the empty text are false. *)
Definition falsy (x : option string) : bool :=
  match x with
  | None => true
  | Some s => String.eqb s ""
  end.

(** ** The data model, app.py lines 19-58 *)

Record Salesperson : Type := {
  Salesperson_id : Z;
  username : string;
  password_hash : string
}.

(** The columns of a lead other than its surrogate key. *)
Record LeadColumns : Type := {
  lead_id : string;
  lead_name : string;
  contact_info : string;
  source : Source;
  interest_level : InterestLevel;
  status : Status
}.

(** A row of table [leads]. *)
Record Lead : Type := {
  Lead_id : Z;
  columns : LeadColumns
}.

(** A [Lead] object that is not flushed yet: its columns and its
    [salespersons] collection. *)
Record NewLead : Type := {
  new_columns : LeadColumns;
  salespersons : list Salesperson
}.

(** The committed database.  [salesperson_leads] holds the pairs
    (salesperson_id, lead_id) of the association table. *)
Record Database : Type := {
  salespersons_table : list Salesperson;
  leads_table : list Lead;
  salesperson_leads : list (Z * Z)
}.

(** The key an INSERT gives a new row. *)
Definition next_key (keys : list Z) : Z := 1 + fold_right Z.max 0 keys.

(** Flushing one new lead: its row, then one association row per element
    of its [salespersons] collection. *)
Definition insert_lead (d : Database) (l : NewLead) : Database :=
  let k := next_key (map Lead_id (leads_table d)) in
  {| salespersons_table := salespersons_table d;
     leads_table := leads_table d ++ [{| Lead_id := k; columns := new_columns l |}];
     salesperson_leads :=
       salesperson_leads d ++ map (fun sp => (Salesperson_id sp, k)) (salespersons l) |}.

(** werkzeug.security, as far as the application uses it. *)
Class PasswordScheme : Type := {
  generate_password_hash : string -> string;
  check_password_hash : string -> string -> bool;
  check_generated : forall p,
    check_password_hash (generate_password_hash p) p = true
}.

(** [Salesperson.check_password]: hashing [None] raises. *)
Definition check_password `{PasswordScheme} (sp : Salesperson)
    (password : option string) : Result bool :=
  match password with
  | Some p => Ok (check_password_hash (password_hash sp) p)
  | None => Raise (AttributeError "'NoneType' object has no attribute 'encode'")
  end.

(** [Salesperson.set_password]. *)
Definition set_password `{PasswordScheme} (sp : Salesperson) (password : string)
    : Salesperson :=
  {| Salesperson_id := Salesperson_id sp;
     username := username sp;
     password_hash := generate_password_hash password |}.

(** The database after start-up, app.py lines 62-75: the four
    salespersons, each with the default password, saved in list order
    into the empty tables. *)
Definition seed_db `{PasswordScheme} : Database :=
  let salespersons :=
    [ {| Salesperson_id := 1; username := "Alice"; password_hash := "" |};
      {| Salesperson_id := 2; username := "Diane"; password_hash := "" |};
      {| Salesperson_id := 3; username := "Charlie"; password_hash := "" |};
      {| Salesperson_id := 4; username := "Bob"; password_hash := "" |} ] in
  {| salespersons_table := map (fun sp => set_password sp "pass123") salespersons;
     leads_table := [];
     salesperson_leads := [] |}.

(** ** The session: state, exceptions and a log of database round trips *)

Inductive Event : Type :=
| SELECT_salesperson (username : option string)
| SELECT_leads
| COMMIT
| ROLLBACK.

Record Env : Type := {
  db : Database;
  pending : list NewLead;
  log : list Event
}.

Definition M (A : Type) : Type := Env -> Result A * Env.

#[export] Instance M_ret : MRet M := fun A a s => (Ok a, s).

#[export] Instance M_bind : MBind M := fun A B f m s =>
  match m s with
  | (Ok a, s') => f a s'
  | (Raise e, s') => (Raise e, s')
  end.

Definition raise {A} (e : exn) : M A := fun s => (Raise e, s).

(** A pure computation that may raise. *)
Definition lift {A} (r : Result A) : M A := fun s => (r, s).

(** [try: m  except Exception as e: h(e)]. *)
Definition try_except {A} (m : M A) (h : exn -> M A) : M A := fun s =>
  match m s with
  | (Ok a, s') => (Ok a, s')
  | (Raise e, s') => h e s'
  end.

Definition emit (ev : Event) : M unit := fun s =>
  (Ok tt, {| db := db s; pending := pending s; log := log s ++ [ev] |}).

(** [known d u]: the first salesperson of the table whose username is
    [u]. *)
Definition known (d : Database) (u : string) : option Salesperson :=
  List.find (fun sp => String.eqb (username sp) u) (salespersons_table d).

(** [Salesperson.query.filter_by(username=u).first()]; a username that
    is [None] matches no row. *)
Definition query_salesperson (u : option string) : M (option Salesperson) := fun s =>
  let found :=
    match u with
    | Some name => known (db s) name
    | None => None
    end in
  (Ok found, {| db := db s; pending := pending s; log := log s ++ [SELECT_salesperson u] |}).

(** [db.session.add(lead)]. *)
Definition session_add (l : NewLead) : M unit := fun s =>
  (Ok tt, {| db := db s; pending := pending s ++ [l]; log := log s |}).

(** [db.session.commit()]. *)
Definition session_commit : M unit := fun s =>
  (Ok tt, {| db := fold_left insert_lead (pending s) (db s);
             pending := [];
             log := log s ++ [COMMIT] |}).

(** [db.session.rollback()]. *)
Definition session_rollback : M unit := fun s =>
  (Ok tt, {| db := db s; pending := []; log := log s ++ [ROLLBACK] |}).

(** One request served on database [d]: a fresh session, the view, and
    the session discarded.  An exception that leaves the view becomes
    flask's error response. *)
Definition serve {B} (view : Request B -> M Response) (d : Database)
    (req : Request B) : Response * Database * list Event :=
  match view req {| db := d; pending := []; log := [] |} with
  | (Ok r, s) => (r, db s, log s)
  | (Raise (HTTPException c n _), s) => ((JStr n, c), db s, log s)
  | (Raise _, s) => ((JStr "Internal Server Error", 500), db s, log s)
  end.

(** ** basic_auth_required, app.py lines 79-90 *)

Definition basic_auth_required `{PasswordScheme} {B}
    (f : Salesperson -> Request B -> M Response) (req : Request B) : M Response :=
  match authorization req with
  | None => mret (jsonify [("error", JStr "Authentication required")], 401)
  | Some auth =>
      if falsy (auth_username auth) || falsy (auth_password auth) then
        mret (jsonify [("error", JStr "Authentication required")], 401)
      else
        salesperson ← query_salesperson (auth_username auth);
        match salesperson with
        | None => mret (jsonify [("error", JStr "Invalid credentials")], 401)
        | Some sp =>
            ok ← lift (check_password sp (auth_password auth));
            if negb ok then
              mret (jsonify [("error", JStr "Invalid credentials")], 401)
            else f sp req
        end
  end.

(** ** ingest_leads, app.py lines 94-137 *)

(** An uploaded file: the rows [csv.DictReader] yields from its text, or
    [None] when its bytes are not UTF-8. *)
Record FileStorage : Type := {
  csv_rows : option (list (gmap string string))
}.

(** [request.files[key]]. *)
Definition files_getitem (files : gmap string FileStorage) (key : string)
    : Result FileStorage :=
  match files !! key with
  | Some f => Ok f
  | None =>
      Raise (HTTPException 400 "400 Bad Request"
        "The browser (or proxy) sent a request that this server could not understand.")
  end.

(** [csvfile.read().decode("utf-8")], then the reader's rows. *)
Definition read_rows (f : FileStorage) : Result (list (gmap string string)) :=
  match csv_rows f with
  | Some rows => Ok rows
  | None => Raise (UnicodeDecodeError "'utf-8' codec can't decode bytes")
  end.

(** [row[key]]. *)
Definition row_getitem (row : gmap string string) (key : string) : Result string :=
  match row !! key with
  | Some v => Ok v
  | None => Raise (KeyError key)
  end.

Definition salesperson_not_found (u : string) : Response :=
  (jsonify [("error", JStr ("Salesperson '" +:+ u +:+ "' not found"))], 400).

(** The body of the loop for one row.  [Some r] is [return r]; [None]
    goes on to the next row. *)
Definition ingest_row (row : gmap string string) : M (option Response) :=
  u ← lift (row_getitem row "Assigned Salesperson");
  salesperson ← query_salesperson (Some u);
  match salesperson with
  | None => mret (Some (salesperson_not_found u))
  | Some sp =>
      t_source ← lift (row_getitem row "Source");
      source ← lift (ingest_source t_source);
      t_interest ← lift (row_getitem row "Interest Level");
      interest_level ← lift (ingest_interest_level t_interest);
      t_status ← lift (row_getitem row "Status");
      status ← lift (ingest_status t_status);
      lead_id ← lift (row_getitem row "Lead ID");
      lead_name ← lift (row_getitem row "Lead Name");
      contact_info ← lift (row_getitem row "Contact Information");
      let lead := {| lead_id := lead_id;
                     lead_name := lead_name;
                     contact_info := contact_info;
                     source := source;
                     interest_level := interest_level;
                     status := status |} in
      session_add {| new_columns := lead; salespersons := [] ++ [sp] |};;
      mret None
  end.

(** [for row in csvreader: ...]. *)
Fixpoint ingest_rows (rows : list (gmap string string)) : M (option Response) :=
  match rows with
  | [] => mret None
  | row :: rest =>
      r ← ingest_row row;
      match r with
      | Some resp => mret (Some resp)
      | None => ingest_rows rest
      end
  end.

Definition ingest_success : Response :=
  (jsonify [("message", JStr "Leads ingested successfully!")], 201).

Definition ingest_failure (e : exn) : Response :=
  (jsonify [("error", JStr "Failed to ingest leads");
            ("details", JStr (str_exn e))], 400).

Definition ingest_leads (req : Request (gmap string FileStorage)) : M Response :=
  try_except
    (csvfile ← lift (files_getitem (payload req) "file");
     rows ← lift (read_rows csvfile);
     r ← ingest_rows rows;
     match r with
     | Some resp => mret resp
     | None => session_commit;; mret ingest_success
     end)
    (fun e => session_rollback;; mret (ingest_failure e)).

(** ** get_salesperson_leads, app.py lines 148-198 *)

(** The JSON body of [/leads]; [None] is an absent key. *)
Record LeadsJson : Type := {
  j_source : option (list string);
  j_interest_level : option (list string);
  j_status : option (list string);
  j_page : option Z;
  j_per_page : option Z
}.

(** [data.get(key, default)]. *)
Definition dict_get {A} (v : option A) (default : A) : A :=
  match v with Some a => a | None => default end.

(** [Lead.query.join(salesperson_leads).filter(
      salesperson_leads.c.salesperson_id == salesperson.id)]: the rows of
    [leads] joined with the association rows that carry their key, kept
    when the association row carries the salesperson's key. *)
Definition joined_leads (d : Database) (sp : Salesperson) : list Lead :=
  flat_map (fun l =>
    flat_map (fun a =>
      if (snd a =? Lead_id l) && (fst a =? Salesperson_id sp) then [l] else [])
      (salesperson_leads d))
    (leads_table d).

(** [column.in_(values)]. *)
Definition in_ {E} `{PyEnum E} (values : list E) (x : E) : bool :=
  existsb (enum_eqb x) values.

(** [if texts: query = query.filter(column.in_([get_enum_value(E, t) for t in texts]))]. *)
Definition filter_by_enum (E : Type) `{PyEnum E} (column : Lead -> E)
    (texts : list string) (query : list Lead) : Result (list Lead) :=
  match texts with
  | [] => Ok query
  | _ :: _ =>
      match comprehension (get_enum_value E) texts with
      | Ok values => Ok (List.filter (fun l => in_ values (column l)) query)
      | Raise e => Raise e
      end
  end.

(** What the view reads of a [Pagination] object. *)
Record Pagination : Type := {
  items : list Lead;
  pages : Z;
  total : Z
}.

Definition not_found : exn :=
  HTTPException 404 "404 Not Found"
    "The requested URL was not found on the server. If you entered the URL manually please check your spelling and try again.".

(** [math.ceil(total / per_page)] for a positive [per_page]. *)
Definition ceil_div (n per_page : Z) : Z := (n + per_page - 1) / per_page.

(** [Pagination.pages]. *)
Definition total_pages (n per_page : Z) : Z :=
  if n =? 0 then 0 else ceil_div n per_page.

(** The rows [(page-1)*per_page : page*per_page] of the query: OFFSET and
    LIMIT. *)
Definition page_slice (query : list Lead) (page per_page : Z) : list Lead :=
  firstn (Z.to_nat per_page) (skipn (Z.to_nat ((page - 1) * per_page)) query).

(** What [Pagination] does once its arguments are accepted: the items of
    the page, [abort(404)] for an empty page other than the first, then
    the count. *)
Definition pagination (query : list Lead) (page per_page : Z) : Result Pagination :=
  let its := page_slice query page per_page in
  if (length its =? 0)%nat && negb (page =? 1) then Raise not_found
  else
    let n := Z.of_nat (length query) in
    Ok {| items := its; pages := total_pages n per_page; total := n |}.

(** [query.paginate(page=page, per_page=per_page)] of Flask-SQLAlchemy
    3.x with [error_out=True]: [abort(404)] for a page or a page size
    below 1, before the query is sent. *)
Definition paginate (query : list Lead) (page per_page : Z) : M Pagination :=
  if (page <? 1) || (per_page <? 1) then raise not_found
  else emit SELECT_leads;; lift (pagination query page per_page).

(** One element of the ["leads"] list of the response. *)
Definition lead_json (l : Lead) : json :=
  JObj [("lead_id", JStr (lead_id (columns l)));
        ("lead_name", JStr (lead_name (columns l)));
        ("contact_info", JStr (contact_info (columns l)));
        ("source", JStr (value (source (columns l))));
        ("interest_level", JStr (value (interest_level (columns l))));
        ("status", JStr (value (status (columns l))))].

Definition leads_page (p : Pagination) : Response :=
  (jsonify [("leads", JList (map lead_json (items p)));
            ("total_pages", JInt (pages p));
            ("total_leads", JInt (total p))], 200).

Definition leads_failure (e : exn) : Response :=
  (jsonify [("error", JStr "Failed to retrieve leads");
            ("details", JStr (str_exn e))], 400).

(** The session's view of the database. *)
Definition database : M Database := fun s => (Ok (db s), s).

(** The filters of the request applied to the salesperson's leads, in
    the order the view builds them. *)
Definition filtered_leads (d : Database) (sp : Salesperson) (data : LeadsJson)
    : Result (list Lead) :=
  let sources := dict_get (j_source data) [] in
  let interest_levels := dict_get (j_interest_level data) [] in
  let statuses := dict_get (j_status data) [] in
  match filter_by_enum Source (fun l => source (columns l)) sources
          (joined_leads d sp) with
  | Raise e => Raise e
  | Ok query =>
      match filter_by_enum InterestLevel (fun l => interest_level (columns l))
              interest_levels query with
      | Raise e => Raise e
      | Ok query => filter_by_enum Status (fun l => status (columns l)) statuses query
      end
  end.

Definition get_salesperson_leads (salesperson : Salesperson)
    (req : Request LeadsJson) : M Response :=
  try_except
    (let data := payload req in
     let page := dict_get (j_page data) 1 in
     let per_page := dict_get (j_per_page data) 10 in
     d ← database;
     query ← lift (filtered_leads d salesperson data);
     paginated_leads ← paginate query page per_page;
     mret (leads_page paginated_leads))
    (fun e => mret (leads_failure e)).

(** ** login, app.py lines 202-213 *)

(** The JSON body of [/login]; [None] is an absent key or [null]. *)
Record LoginJson : Type := {
  j_username : option string;
  j_password : option string
}.

Definition login `{PasswordScheme} (req : Request LoginJson) : M Response :=
  try_except
    (let data := payload req in
     let username := j_username data in
     let password := j_password data in
     salesperson ← query_salesperson username;
     match salesperson with
     | None => mret (jsonify [("error", JStr "Invalid credentials")], 401)
     | Some sp =>
         ok ← lift (check_password sp password);
         if negb ok then mret (jsonify [("error", JStr "Invalid credentials")], 401)
         else mret (jsonify [("message", JStr "Login successful")], 200)
     end)
    (fun e =>
       mret (jsonify [("error", JStr "Failed to login");
                      ("details", JStr (str_exn e))], 400)).

(** The three routes as the application registers them. *)
Definition route_ingest_leads := serve ingest_leads.
Definition route_leads `{PasswordScheme} :=
  serve (basic_auth_required get_salesperson_leads).
Definition route_login `{PasswordScheme} := serve login.

(** ** Vocabulary of the statements *)

(** A valid row and the lead object built from it: the seven columns are
    present, the username is known and the three enum texts resolve. *)
Inductive valid_row (d : Database) (row : gmap string string) : NewLead -> Prop :=
| valid_row_intro u sp t_source t_interest t_status s i st id nm ci :
    row !! "Assigned Salesperson" = Some u ->
    known d u = Some sp ->
    row !! "Source" = Some t_source -> ingest_source t_source = Ok s ->
    row !! "Interest Level" = Some t_interest ->
    ingest_interest_level t_interest = Ok i ->
    row !! "Status" = Some t_status -> ingest_status t_status = Ok st ->
    row !! "Lead ID" = Some id ->
    row !! "Lead Name" = Some nm ->
    row !! "Contact Information" = Some ci ->
    valid_row d row
      {| new_columns := {| lead_id := id; lead_name := nm; contact_info := ci;
                           source := s; interest_level := i; status := st |};
         salespersons := [sp] |}.

(** The row names a username that no salesperson has. *)
Definition unknown_salesperson (d : Database) (row : gmap string string)
    (u : string) : Prop :=
  row !! "Assigned Salesperson" = Some u /\ known d u = None.

(** A fresh session on database [d]. *)
Definition fresh_session (d : Database) : Env :=
  {| db := d; pending := []; log := [] |}.

(** The largest key of table [leads], 0 when it is empty. *)
Definition key_bound (d : Database) : Z :=
  fold_right Z.max 0 (map Lead_id (leads_table d)).

(** Every association row refers to a row of [leads]. *)
Definition foreign_keys_hold (d : Database) : Prop :=
  forall a, In a (salesperson_leads d) -> In (snd a) (map Lead_id (leads_table d)).

(** The request carries Basic credentials that the stored salesperson
    [sp] accepts. *)
Definition authenticated `{PasswordScheme} {B} (d : Database) (req : Request B)
    (sp : Salesperson) : Prop :=
  exists a u p,
    authorization req = Some a /\
    auth_username a = Some u /\ auth_password a = Some p /\
    u <> "" /\ p <> "" /\
    known d u = Some sp /\
    check_password_hash (password_hash sp) p = true.

(** The response of the view as a function of the filtered rows. *)
Definition leads_response (d : Database) (sp : Salesperson) (data : LeadsJson)
    : Response :=
  let page := dict_get (j_page data) 1 in
  let per_page := dict_get (j_per_page data) 10 in
  match filtered_leads d sp data with
  | Raise e => leads_failure e
  | Ok rows =>
      if (page <? 1) || (per_page <? 1) then leads_failure not_found
      else match pagination rows page per_page with
           | Ok p => leads_page p
           | Raise e => leads_failure e
           end
  end.

(** The request with both paging keys given. *)
Definition with_paging (page per_page : Z) (req : Request LeadsJson)
    : Request LeadsJson :=
  {| authorization := authorization req;
     payload := {| j_source := j_source (payload req);
                   j_interest_level := j_interest_level (payload req);
                   j_status := j_status (payload req);
                   j_page := Some page;
                   j_per_page := Some per_page |} |}.

(** [v] is a filter text of the request that does not resolve in the
    enumeration called [enum]. *)
Definition invalid_filter (data : LeadsJson) (enum v : string) : Prop :=
  (enum = "Source" /\ In v (dict_get (j_source data) []) /\
   is_ok (get_enum_value Source v) = false) \/
  (enum = "InterestLevel" /\ In v (dict_get (j_interest_level data) []) /\
   is_ok (get_enum_value InterestLevel v) = false) \/
  (enum = "Status" /\ In v (dict_get (j_status data) []) /\
   is_ok (get_enum_value Status v) = false).

(** The three parts of what a route returns. *)
Definition response_of (r : Response * Database * list Event) : Response :=
  fst (fst r).

Definition status_of (r : Response * Database * list Event) : Z :=
  snd (fst (fst r)).

Definition database_after (r : Response * Database * list Event) : Database :=
  snd (fst r).

(** The integrity constraints the tables declare: the keys of [leads]
    are distinct, the association table holds no pair twice, and each of
    its pairs refers to a stored salesperson and to a stored lead. *)
Definition integrity (d : Database) : Prop :=
  List.NoDup (map Lead_id (leads_table d)) /\
  List.NoDup (salesperson_leads d) /\
  forall a, In a (salesperson_leads d) ->
    In (fst a) (map Salesperson_id (salespersons_table d)) /\
    In (snd a) (map Lead_id (leads_table d)).

(** The [/leads] body that filters by the three labels a lead is
    serialized with. *)
Definition filter_by_labels (l : Lead) (page per_page : option Z) : LeadsJson :=
  {| j_source := Some [value (source (columns l))];
     j_interest_level := Some [value (interest_level (columns l))];
     j_status := Some [value (status (columns l))];
     j_page := page;
     j_per_page := per_page |}.

(** ** A concrete installation, for the examples *)

(** A scheme that stores the password behind a marker, standing for
    werkzeug's salted hashes. *)
#[export] Instance demo_scheme : PasswordScheme := {|
  generate_password_hash p := "plain$" +:+ p;
  check_password_hash h p := String.eqb h ("plain$" +:+ p);
  check_generated p := String.eqb_refl ("plain$" +:+ p)
|}.

Definition demo_row (salesperson source interest status : string)
    : gmap string string :=
  list_to_map [("Lead ID", "7"); ("Lead Name", "Nora Quinn");
               ("Contact Information", "nora@example.com");
               ("Source", source); ("Interest Level", interest);
               ("Status", status); ("Assigned Salesperson", salesperson)].

Definition demo_upload (rows : list (gmap string string))
    : Request (gmap string FileStorage) :=
  {| authorization := None;
     payload := {[ "file" := {| csv_rows := Some rows |} ]} |}.

Definition demo_login (u p : option string) : Request LoginJson :=
  {| authorization := None;
     payload := {| j_username := u; j_password := p |} |}.

Definition demo_query (u p : string) (data : LeadsJson) : Request LeadsJson :=
  {| authorization := Some {| auth_username := Some u; auth_password := Some p |};
     payload := data |}.

Definition no_filters (page per_page : option Z) : LeadsJson :=
  {| j_source := None; j_interest_level := None; j_status := None;
     j_page := page; j_per_page := per_page |}.

(** A database in which Alice has fifteen leads. *)
Definition demo_lead (n : nat) : NewLead :=
  {| new_columns := {| lead_id := "7"; lead_name := "Nora Quinn";
                       contact_info := "nora@example.com";
                       source := match n with O => EVENT | _ => COLD_CALL end;
                       interest_level := HIGH; status := CLOSED |};
     salespersons := [ {| Salesperson_id := 1; username := "Alice";
                          password_hash := generate_password_hash "pass123" |} ] |}.

Definition demo_db15 : Database :=
  fold_left insert_lead (map demo_lead (seq 0 15)) seed_db.

Definition alice : Salesperson :=
  {| Salesperson_id := 1; username := "Alice";
     password_hash := generate_password_hash "pass123" |}.

(** * Properties *)

(** Unfolding the monad's operations. *)
Ltac run :=
  unfold mbind, M_bind, mret, M_ret, lift, raise, emit, try_except,
    query_salesperson, session_add, session_commit, session_rollback,
    database in *; simpl in *.

(** ** Strings and enumerations *)

#[export] Instance Source_enum_eq : PyEnumEq Source.
Proof. intros [] []; simpl; split; congruence. Qed.

#[export] Instance InterestLevel_enum_eq : PyEnumEq InterestLevel.
Proof. intros [] []; simpl; split; congruence. Qed.

#[export] Instance Status_enum_eq : PyEnumEq Status.
Proof. intros [] []; simpl; split; congruence. Qed.

Lemma upper_replace_without_underscore (t : string) :
  Str.has_char "_" (Str.upper (Str.replace " " "_" t)) = false ->
  Str.replace " " "_" t = t.
Proof.
  induction t as [|c t IH]; simpl; [reflexivity|].
  destruct (Ascii.eqb c " ") eqn:E.
  - simpl. discriminate.
  - intros H. apply orb_false_elim in H as [_ H]. now rewrite IH.
Qed.

Lemma getitem_name_Source (m : Source) : getitem Source (name m) = Ok m.
Proof. destruct m; reflexivity. Qed.

Lemma getitem_name_InterestLevel (m : InterestLevel) :
  getitem InterestLevel (name m) = Ok m.
Proof. destruct m; reflexivity. Qed.

Lemma getitem_name_Status (m : Status) : getitem Status (name m) = Ok m.
Proof. destruct m; reflexivity. Qed.

Lemma InterestLevel_names_plain (m : InterestLevel) :
  Str.has_char "_" (name m) = false.
Proof. destruct m; reflexivity. Qed.

Lemma Status_names_plain (m : Status) : Str.has_char "_" (name m) = false.
Proof. destruct m; reflexivity. Qed.

(** [get_enum_value] turns the only failure of the lookup into a
    [ValueError] that quotes the text as it was given. *)
Lemma get_enum_value_raise (E : Type) `{PyEnum E} (v : string) (e : exn) :
  get_enum_value E v = Raise e ->
  e = ValueError ("Invalid value for " +:+ enum_name +:+ ": " +:+ v).
Proof.
  unfold get_enum_value, getitem.
  destruct (List.find _ _); [discriminate|]. now intros [= <-].
Qed.

Lemma comprehension_raise {A B} (f : A -> Result B) (xs : list A) (e : exn) :
  comprehension f xs = Raise e -> exists x, In x xs /\ f x = Raise e.
Proof.
  induction xs as [|x xs IH]; simpl; [discriminate|].
  destruct (f x) eqn:Fx.
  - destruct (comprehension f xs); [discriminate|].
    intros [= <-]. destruct IH as (y & ? & ?); eauto.
  - intros [= <-]. eauto.
Qed.

Lemma comprehension_some_raise {A B} (f : A -> Result B) (xs : list A) (x : A) :
  In x xs -> is_ok (f x) = false -> exists e, comprehension f xs = Raise e.
Proof.
  induction xs as [|y xs IH]; simpl; [tauto|].
  intros [->|Hin] Hx.
  - destruct (f x); [discriminate|]. eauto.
  - destruct (f y); [|eauto].
    destruct (IH Hin Hx) as [e ->]. eauto.
Qed.

(** C2 (as amended): during ingestion the Source text has every space
    replaced by an underscore and is uppercased before the lookup, while
    the Interest Level and Status texts are only uppercased; for each of
    the three columns, a text that equals a member name after the
    space-to-underscore and uppercase normalization resolves to that
    member. *)
Theorem ingest_enum_resolution (text : string) :
  ingest_source text = getitem Source (spec_normalize text) /\
  ingest_interest_level text = getitem InterestLevel (Str.upper text) /\
  ingest_status text = getitem Status (Str.upper text) /\
  (forall m : Source, spec_normalize text = name m -> ingest_source text = Ok m) /\
  (forall m : InterestLevel,
      spec_normalize text = name m -> ingest_interest_level text = Ok m) /\
  (forall m : Status, spec_normalize text = name m -> ingest_status text = Ok m).
Proof.
  repeat split; try reflexivity.
  - intros m Hm. unfold ingest_source. fold (spec_normalize text).
    rewrite Hm. apply getitem_name_Source.
  - intros m Hm. unfold ingest_interest_level.
    assert (Hr : Str.replace " " "_" text = text).
    { apply upper_replace_without_underscore. fold (spec_normalize text).
      rewrite Hm. apply InterestLevel_names_plain. }
    unfold spec_normalize in Hm. rewrite Hr in Hm. rewrite Hm.
    apply getitem_name_InterestLevel.
  - intros m Hm. unfold ingest_status.
    assert (Hr : Str.replace " " "_" text = text).
    { apply upper_replace_without_underscore. fold (spec_normalize text).
      rewrite Hm. apply Status_names_plain. }
    unfold spec_normalize in Hm. rewrite Hr in Hm. rewrite Hm.
    apply getitem_name_Status.
Qed.

Lemma ingest_enum_resolution_witness :
  spec_normalize "cold call" = name COLD_CALL /\
  ingest_source "cold call" = Ok COLD_CALL /\
  spec_normalize "medium" = name MEDIUM /\
  ingest_interest_level "medium" = Ok MEDIUM /\
  spec_normalize "Qualified" = name QUALIFIED /\
  ingest_status "Qualified" = Ok QUALIFIED.
Proof.
  split; [reflexivity|].
  split; [apply (ingest_enum_resolution "cold call"); reflexivity|].
  split; [reflexivity|].
  split; [apply (ingest_enum_resolution "medium"); reflexivity|].
  split; [reflexivity|].
  apply (ingest_enum_resolution "Qualified"); reflexivity.
Defined.

(** C2, the claim as written fails: for the Interest Level text
    ["very high"] the key that is looked up, and reported in the 400
    response, is ["VERY HIGH"]; its space was not replaced. *)
Lemma interest_level_space_not_replaced :
  spec_normalize "very high" = "VERY_HIGH" /\
  ingest_interest_level "very high" = Raise (KeyError "VERY HIGH") /\
  ingest_interest_level "very high" <> getitem InterestLevel (spec_normalize "very high") /\
  fst (fst (route_ingest_leads seed_db
              (demo_upload [demo_row "Alice" "Event" "very high" "New"]))) =
    (jsonify [("error", JStr "Failed to ingest leads");
              ("details", JStr "'VERY HIGH'")], 400).
Proof.
  split; [reflexivity|]. split; [reflexivity|].
  split; [discriminate|]. reflexivity.
Qed.

(** ** Authentication *)

Section Auth.
Context `{PasswordScheme}.

Lemma falsy_some (s : string) : s <> "" -> falsy (Some s) = false.
Proof. intros Hs. simpl. now apply String.eqb_neq. Qed.

Lemma known_In (d : Database) (u : string) (sp : Salesperson) :
  known d u = Some sp -> In sp (salespersons_table d) /\ username sp = u.
Proof.
  intros Hf. apply List.find_some in Hf as [Hin Heq].
  split; [assumption|]. now apply String.eqb_eq.
Qed.

(** With accepted credentials the decorator looks the salesperson up
    and hands over to the view. *)
Lemma basic_auth_accepts {B} (f : Salesperson -> Request B -> M Response)
    (d : Database) (req : Request B) (sp : Salesperson) :
  authenticated d req sp ->
  exists u, forall s, db s = d ->
    basic_auth_required f req s =
    f sp req {| db := db s; pending := pending s;
                log := log s ++ [SELECT_salesperson (Some u)] |}.
Proof.
  intros (a & u & p & Ha & Hu & Hp & Hu' & Hp' & Hf & Hc).
  exists u. intros s <-. unfold basic_auth_required.
  rewrite Ha, Hu, Hp, !falsy_some by assumption. run.
  rewrite Hf. simpl. now rewrite Hc.
Qed.

(** C8: a [/leads] request without Basic credentials (no header, or a
    missing or empty username or password) gets 401 with no database
    round trip at all, and a request whose username and password no
    stored salesperson accepts gets 401 after the single lookup by
    username; in both cases the answer is the same whatever the wrapped
    view is, so the view has not run. *)
Theorem basic_auth_rejects_before_view {B}
    (f : Salesperson -> Request B -> M Response) (d : Database) (req : Request B) :
  ((authorization req = None \/
    exists a, authorization req = Some a /\
              (falsy (auth_username a) = true \/ falsy (auth_password a) = true)) ->
   serve (basic_auth_required f) d req =
     ((jsonify [("error", JStr "Authentication required")], 401), d, [])) /\
  (forall a u p,
     authorization req = Some a ->
     auth_username a = Some u -> auth_password a = Some p ->
     u <> "" -> p <> "" ->
     (forall sp, In sp (salespersons_table d) -> username sp = u ->
                 check_password_hash (password_hash sp) p = false) ->
     serve (basic_auth_required f) d req =
       ((jsonify [("error", JStr "Invalid credentials")], 401), d,
        [SELECT_salesperson (Some u)])).
Proof.
  split.
  - intros [Hn | (a & Ha & Hf)]; unfold serve, basic_auth_required.
    + now rewrite Hn.
    + rewrite Ha. destruct Hf as [-> | ->]; [reflexivity|].
      now rewrite orb_true_r.
  - intros a u p Ha Hu Hp Hu' Hp' Hno.
    unfold serve, basic_auth_required.
    rewrite Ha, Hu, Hp, !falsy_some by assumption. run.
    destruct (known d u) as [sp|] eqn:Hf; simpl; [|reflexivity].
    apply known_In in Hf as [Hin Heq].
    now rewrite (Hno sp Hin Heq).
Qed.

End Auth.

Lemma basic_auth_rejects_before_view_witness :
  route_leads seed_db
    {| authorization := None; payload := no_filters None None |} =
    ((jsonify [("error", JStr "Authentication required")], 401), seed_db, []) /\
  route_leads seed_db (demo_query "Alice" "letmein" (no_filters None None)) =
    ((jsonify [("error", JStr "Invalid credentials")], 401), seed_db,
     [SELECT_salesperson (Some "Alice")]).
Proof.
  split.
  - apply (basic_auth_rejects_before_view get_salesperson_leads seed_db
             {| authorization := None; payload := no_filters None None |}).
    left. reflexivity.
  - apply (proj2 (basic_auth_rejects_before_view get_salesperson_leads seed_db
             (demo_query "Alice" "letmein" (no_filters None None)))
             {| auth_username := Some "Alice"; auth_password := Some "letmein" |}
             "Alice" "letmein");
      try reflexivity; try discriminate.
    intros sp Hin Hu. simpl in Hin.
    destruct Hin as [<-|[<-|[<-|[<-|[]]]]]; reflexivity.
Defined.

(** ** Login *)

Section Login.
Context `{PasswordScheme}.

(** With a password that is text, [/login] answers 200 exactly when the
    salesperson found by the username accepts it, and otherwise the one
    401 response, whether or not the username exists. *)
Lemma login_text_password (d : Database) (u : option string) (p : string) :
  fst (fst (route_login d (demo_login u (Some p)))) =
  match u with
  | None => (jsonify [("error", JStr "Invalid credentials")], 401)
  | Some name =>
      match known d name with
      | Some sp =>
          if check_password_hash (password_hash sp) p
          then (jsonify [("message", JStr "Login successful")], 200)
          else (jsonify [("error", JStr "Invalid credentials")], 401)
      | None => (jsonify [("error", JStr "Invalid credentials")], 401)
      end
  end.
Proof.
  unfold route_login, serve, login. run.
  destruct u as [name|]; [|reflexivity].
  destruct (known d name) as [sp|]; simpl; [|reflexivity].
  now destruct (check_password_hash _ _).
Qed.

(** Without a password, the answer depends on whether the username is
    known: the hashing error for a known one, the 401 for an unknown
    one. *)
Lemma login_missing_password (d : Database) (name : string) :
  fst (fst (route_login d (demo_login (Some name) None))) =
  match known d name with
  | Some _ =>
      (jsonify [("error", JStr "Failed to login");
                ("details", JStr "'NoneType' object has no attribute 'encode'")], 400)
  | None => (jsonify [("error", JStr "Invalid credentials")], 401)
  end.
Proof.
  unfold route_login, serve, login. run.
  now destruct (known d name).
Qed.

End Login.

(** C3, the failing input: with the password key absent (or null) the
    known username ["Alice"] gets 400 with the hashing error, the unknown
    username ["Mallory"] gets 401; status and body differ, so the answer
    tells whether the username exists. *)
Theorem login_null_password_reveals_username :
  fst (fst (route_login seed_db (demo_login (Some "Alice") None))) =
    (jsonify [("error", JStr "Failed to login");
              ("details", JStr "'NoneType' object has no attribute 'encode'")], 400) /\
  fst (fst (route_login seed_db (demo_login (Some "Mallory") None))) =
    (jsonify [("error", JStr "Invalid credentials")], 401) /\
  fst (fst (route_login seed_db (demo_login (Some "Alice") None))) <>
  fst (fst (route_login seed_db (demo_login (Some "Mallory") None))).
Proof.
  split; [reflexivity|]. split; [reflexivity|]. discriminate.
Qed.

(** ** Ingestion *)

Lemma valid_row_known (d : Database) (row : gmap string string) (l : NewLead) (u : string) :
  valid_row d row l -> ~ unknown_salesperson d row u.
Proof.
  intros Hv [Hu Hk]. destruct Hv as [u' sp ? ? ? ? ? ? ? ? ? Hu' Hk'].
  congruence.
Qed.

(** What one turn of the loop can do. *)
Lemma ingest_row_outcome (row : gmap string string) (s : Env) :
  match ingest_row row s with
  | (Ok None, s') =>
      db s' = db s /\
      exists l, valid_row (db s) row l /\ pending s' = pending s ++ [l]
  | (Ok (Some resp), s') =>
      db s' = db s /\
      exists u, unknown_salesperson (db s) row u /\ resp = salesperson_not_found u
  | (Raise e, s') => db s' = db s
  end.
Proof.
  unfold ingest_row, row_getitem, unknown_salesperson. run.
  destruct (row !! "Assigned Salesperson") as [u|] eqn:Hu; simpl; [|reflexivity].
  destruct (known (db s) u) as [sp|] eqn:Hk; simpl; [|eauto].
  destruct (row !! "Source") as [t1|] eqn:H1; simpl; [|reflexivity].
  destruct (ingest_source t1) as [x1|] eqn:E1; simpl; [|reflexivity].
  destruct (row !! "Interest Level") as [t2|] eqn:H2; simpl; [|reflexivity].
  destruct (ingest_interest_level t2) as [x2|] eqn:E2; simpl; [|reflexivity].
  destruct (row !! "Status") as [t3|] eqn:H3; simpl; [|reflexivity].
  destruct (ingest_status t3) as [x3|] eqn:E3; simpl; [|reflexivity].
  destruct (row !! "Lead ID") as [id|] eqn:H4; simpl; [|reflexivity].
  destruct (row !! "Lead Name") as [nm|] eqn:H5; simpl; [|reflexivity].
  destruct (row !! "Contact Information") as [ci|] eqn:H6; simpl; [|reflexivity].
  split; [reflexivity|]. eexists. split; [|reflexivity].
  econstructor; eassumption.
Qed.

(** A valid row adds its lead to the session and the loop goes on. *)
Lemma ingest_row_valid (row : gmap string string) (l : NewLead) (s : Env) :
  valid_row (db s) row l ->
  exists s', ingest_row row s = (Ok None, s') /\
             db s' = db s /\ pending s' = pending s ++ [l].
Proof.
  intros [u sp t1 t2 t3 x1 x2 x3 id nm ci Hu Hk H1 E1 H2 E2 H3 E3 H4 H5 H6].
  unfold ingest_row, row_getitem. run. rewrite Hu. simpl.
  rewrite Hk. simpl.
  rewrite H1. simpl. rewrite E1. simpl. rewrite H2. simpl. rewrite E2. simpl.
  rewrite H3. simpl. rewrite E3. simpl. rewrite H4. simpl. rewrite H5. simpl.
  rewrite H6. simpl. eexists. split; [reflexivity|]. split; reflexivity.
Qed.

(** A row with an unknown username makes the view return. *)
Lemma ingest_row_unknown (row : gmap string string) (u : string) (s : Env) :
  unknown_salesperson (db s) row u ->
  exists s', ingest_row row s = (Ok (Some (salesperson_not_found u)), s') /\
             db s' = db s /\ pending s' = pending s.
Proof.
  intros [Hu Hk]. unfold ingest_row, row_getitem. run. rewrite Hu. simpl.
  rewrite Hk. simpl.
  eexists. split; [reflexivity|]. split; reflexivity.
Qed.

(** What the whole loop can do. *)
Lemma ingest_rows_outcome (rows : list (gmap string string)) : forall s : Env,
  match ingest_rows rows s with
  | (Ok None, s') =>
      db s' = db s /\
      exists ls, Forall2 (valid_row (db s)) rows ls /\ pending s' = pending s ++ ls
  | (Ok (Some resp), s') =>
      db s' = db s /\
      exists row u, In row rows /\ unknown_salesperson (db s) row u /\
                    resp = salesperson_not_found u
  | (Raise e, s') => db s' = db s
  end.
Proof.
  induction rows as [|row rows IH]; intros s; simpl.
  - run. split; [reflexivity|]. exists []. split; [constructor|].
    now rewrite app_nil_r.
  - unfold mbind, M_bind.
    pose proof (ingest_row_outcome row s) as Hrow.
    destruct (ingest_row row s) as [[[resp|]|e] s1].
    + destruct Hrow as (Hdb & u & Hu & ->). unfold mret, M_ret.
      split; [assumption|]. exists row, u. simpl. auto.
    + destruct Hrow as (Hdb & l & Hl & Hp).
      specialize (IH s1). destruct (ingest_rows rows s1) as [[[resp|]|e] s2].
      * destruct IH as (Hdb2 & r & u & Hin & Hu & ->). rewrite Hdb in *.
        split; [assumption|]. exists r, u. simpl. auto.
      * destruct IH as (Hdb2 & ls & Hls & Hp2). rewrite Hdb in *.
        split; [assumption|]. exists (l :: ls). split; [now constructor|].
        rewrite Hp2, Hp, <- app_assoc. reflexivity.
      * congruence.
    + assumption.
Qed.

Lemma ingest_rows_valid (rows : list (gmap string string)) :
  forall (ls : list NewLead) (s : Env),
    Forall2 (valid_row (db s)) rows ls ->
    exists s', ingest_rows rows s = (Ok None, s') /\
               db s' = db s /\ pending s' = pending s ++ ls.
Proof.
  induction rows as [|row rows IH]; intros ls s Hv; inversion Hv; subst; simpl.
  - run. eexists. split; [reflexivity|]. split; [reflexivity|].
    now rewrite app_nil_r.
  - match goal with
    | Hl : valid_row _ row ?l, Hr : Forall2 _ rows ?r |- _ =>
        destruct (ingest_row_valid row l s Hl) as (s1 & E1 & Hdb1 & Hp1);
        rewrite <- Hdb1 in Hr;
        destruct (IH r s1 Hr) as (s2 & E2 & Hdb2 & Hp2)
    end.
    unfold mbind, M_bind. rewrite E1, E2.
    eexists. split; [reflexivity|]. split; [congruence|].
    rewrite Hp2, Hp1, <- app_assoc. reflexivity.
Qed.

(** The route, by cases on the upload and on how the loop ends. *)
Lemma route_ingest_leads_cases (d : Database) (req : Request (gmap string FileStorage)) :
  match payload req !! "file" with
  | None => exists e, route_ingest_leads d req = (ingest_failure e, d, [ROLLBACK])
  | Some f =>
      match csv_rows f with
      | None => exists e, route_ingest_leads d req = (ingest_failure e, d, [ROLLBACK])
      | Some rows =>
          match ingest_rows rows (fresh_session d) with
          | (Ok None, s) =>
              route_ingest_leads d req =
              (ingest_success, fold_left insert_lead (pending s) (db s), log s ++ [COMMIT])
          | (Ok (Some resp), s) => route_ingest_leads d req = (resp, db s, log s)
          | (Raise e, s) =>
              route_ingest_leads d req = (ingest_failure e, db s, log s ++ [ROLLBACK])
          end
      end
  end.
Proof.
  unfold route_ingest_leads, serve, ingest_leads, files_getitem, read_rows, fresh_session.
  run.
  destruct (payload req !! "file") as [f|]; simpl; [|eauto].
  destruct (csv_rows f) as [rows|]; simpl; [|eauto].
  destruct (ingest_rows rows _) as [[[resp|]|e] s]; simpl; reflexivity.
Qed.

Lemma startswith_app (u rest : string) : Str.startswith u (u +:+ rest) = true.
Proof.
  induction u as [|c u IH]; simpl; [reflexivity|].
  now rewrite Ascii.eqb_refl, IH.
Qed.

Lemma contains_startswith (u hay : string) :
  Str.startswith u hay = true -> Str.contains u hay = true.
Proof. destruct hay; simpl; intros ->; reflexivity. Qed.

Lemma contains_app (u before rest : string) :
  Str.contains u (before +:+ u +:+ rest) = true.
Proof.
  induction before as [|c b IH].
  - change ("" +:+ u +:+ rest) with (u +:+ rest).
    apply contains_startswith, startswith_app.
  - change (String c b +:+ u +:+ rest) with (String c (b +:+ u +:+ rest)).
    simpl. rewrite IH. apply orb_true_r.
Qed.

Lemma contains_append_r (u before hay : string) :
  Str.contains u hay = true -> Str.contains u (before +:+ hay) = true.
Proof.
  intros Hc. induction before as [|c b IH]; [exact Hc|].
  change (String c b +:+ hay) with (String c (b +:+ hay)).
  simpl. rewrite IH. apply orb_true_r.
Qed.

Lemma contains_refl (u : string) : Str.contains u u = true.
Proof.
  apply contains_startswith. induction u as [|c u IH]; simpl; [reflexivity|].
  now rewrite Ascii.eqb_refl.
Qed.

Lemma salesperson_not_found_mentions (u : string) :
  mentions u (fst (salesperson_not_found u)) = true.
Proof.
  unfold salesperson_not_found, mentions, jsonify. cbn [fst snd existsb].
  now rewrite (contains_app u "Salesperson '" "' not found").
Qed.

Lemma Forall2_In_left {A B} (R : A -> B -> Prop) (xs : list A) (ys : list B) (x : A) :
  Forall2 R xs ys -> In x xs -> exists y, R x y.
Proof.
  induction 1 as [|a b xs ys Hab _ IH]; simpl; [tauto|].
  intros [<-|Hin]; eauto.
Qed.

(** Valid rows followed by a row with an unknown username: the loop
    returns the response made for that row. *)
Lemma ingest_rows_first_unknown (before after : list (gmap string string))
    (row : gmap string string) (u : string) :
  forall (ls : list NewLead) (s : Env),
    Forall2 (valid_row (db s)) before ls ->
    unknown_salesperson (db s) row u ->
    exists s', ingest_rows (before ++ row :: after) s =
                 (Ok (Some (salesperson_not_found u)), s') /\ db s' = db s.
Proof.
  induction before as [|r before IH]; intros ls s Hv Hu; simpl.
  - destruct (ingest_row_unknown row u s Hu) as (s' & E & Hdb & _).
    unfold mbind, M_bind. rewrite E. unfold mret, M_ret. eauto.
  - inversion Hv as [|? l ? ls' Hl Hls]; subst.
    destruct (ingest_row_valid r l s Hl) as (s1 & E1 & Hdb1 & _).
    unfold mbind, M_bind. rewrite E1. rewrite <- Hdb1 in Hls, Hu.
    destruct (IH ls' s1 Hls Hu) as (s2 & E2 & Hdb2).
    exists s2. split; [assumption|congruence].
Qed.

(** C1 (as amended): a request whose CSV has a row naming an unknown
    salesperson always gets status 400 and leaves the committed database
    as it was; when every row before that row is valid, the response is
    the one that names that username. *)
Theorem unknown_salesperson_aborts_ingestion
    (d : Database) (req : Request (gmap string FileStorage))
    (f : FileStorage) (rows : list (gmap string string)) :
  payload req !! "file" = Some f -> csv_rows f = Some rows ->
  (forall row u, In row rows -> unknown_salesperson d row u ->
     snd (fst (fst (route_ingest_leads d req))) = 400 /\
     snd (fst (route_ingest_leads d req)) = d) /\
  (forall before row after ls u,
     rows = before ++ row :: after ->
     Forall2 (valid_row d) before ls ->
     unknown_salesperson d row u ->
     fst (fst (route_ingest_leads d req)) = salesperson_not_found u /\
     mentions u (fst (fst (fst (route_ingest_leads d req)))) = true).
Proof.
  intros Hf Hrows.
  pose proof (route_ingest_leads_cases d req) as Hc. rewrite Hf, Hrows in Hc.
  split.
  - intros row u Hin Hu.
    pose proof (ingest_rows_outcome rows (fresh_session d)) as Ho.
    destruct (ingest_rows rows (fresh_session d)) as [[[resp|]|e] s]; rewrite Hc; simpl.
    + destruct Ho as (Hdb & r & u' & _ & _ & ->). split; [reflexivity|assumption].
    + destruct Ho as (_ & ls & Hls & _). exfalso.
      destruct (Forall2_In_left _ _ _ _ Hls Hin) as [l Hl].
      exact (valid_row_known _ _ _ _ Hl Hu).
    + split; [reflexivity|assumption].
  - intros before row after ls u -> Hbefore Hu.
    destruct (ingest_rows_first_unknown before after row u ls (fresh_session d)
                Hbefore Hu) as (s & E & _).
    rewrite E in Hc. rewrite Hc. simpl.
    split; [reflexivity|]. apply (salesperson_not_found_mentions u).
Qed.

Lemma unknown_salesperson_aborts_ingestion_witness :
  let rows := [demo_row "Alice" "cold call" "High" "New";
               demo_row "Zed" "Event" "Low" "Closed"] in
  snd (fst (fst (route_ingest_leads seed_db (demo_upload rows)))) = 400 /\
  snd (fst (route_ingest_leads seed_db (demo_upload rows))) = seed_db /\
  fst (fst (route_ingest_leads seed_db (demo_upload rows))) =
    salesperson_not_found "Zed".
Proof.
  intros rows.
  pose proof (unknown_salesperson_aborts_ingestion seed_db (demo_upload rows)
                {| csv_rows := Some rows |} rows eq_refl eq_refl) as [HA HB].
  assert (Hu : unknown_salesperson seed_db (demo_row "Zed" "Event" "Low" "Closed") "Zed")
    by (split; reflexivity).
  destruct (HA (demo_row "Zed" "Event" "Low" "Closed") "Zed") as [H1 H2];
    [right; left; reflexivity | exact Hu |].
  split; [exact H1|]. split; [exact H2|].
  refine (proj1 (HB [demo_row "Alice" "cold call" "High" "New"]
                    (demo_row "Zed" "Event" "Low" "Closed") [] _ "Zed" eq_refl _ Hu)).
  constructor; [|constructor].
  eapply (valid_row_intro seed_db _ "Alice"); reflexivity.
Defined.

(** C1, the claim as written fails: the second row names the unknown
    salesperson ["Zed"], but the first row stops the ingestion with an
    unresolvable Source, and the 400 response does not name ["Zed"]. *)
Lemma unknown_salesperson_not_named :
  let rows := [demo_row "Alice" "Bogus" "High" "New";
               demo_row "Zed" "Event" "High" "New"] in
  unknown_salesperson seed_db (demo_row "Zed" "Event" "High" "New") "Zed" /\
  fst (fst (route_ingest_leads seed_db (demo_upload rows))) =
    (jsonify [("error", JStr "Failed to ingest leads");
              ("details", JStr "'BOGUS'")], 400) /\
  mentions "Zed" (fst (fst (fst (route_ingest_leads seed_db (demo_upload rows))))) = false.
Proof.
  split; [split; reflexivity|]. split; reflexivity.
Qed.

(** C9, the claim as written fails: the response for an unknown
    salesperson has an [error] field and no [details] field. *)
Lemma unknown_salesperson_response_has_no_details :
  fst (fst (route_ingest_leads seed_db
              (demo_upload [demo_row "Zed" "Event" "High" "New"]))) =
    (jsonify [("error", JStr "Salesperson 'Zed' not found")], 400) /\
  has_field "details"
    (fst (fst (fst (route_ingest_leads seed_db
                      (demo_upload [demo_row "Zed" "Event" "High" "New"]))))) = false.
Proof. split; reflexivity. Qed.

(** C9 (as amended): every [/ingest_leads] request gets either 201 with
    the success message, or 400 with a JSON body that has an [error]
    field; the body also has a [details] field, except in the response
    for a row that names an unknown salesperson, which carries only
    [error], with the username in its text. *)
Theorem ingest_response_shape (d : Database) (req : Request (gmap string FileStorage)) :
  let resp := fst (fst (route_ingest_leads d req)) in
  resp = ingest_success \/
  (snd resp = 400 /\ has_field "error" (fst resp) = true /\
   (has_field "details" (fst resp) = true \/
    exists f rows row u,
      payload req !! "file" = Some f /\ csv_rows f = Some rows /\
      In row rows /\ unknown_salesperson d row u /\
      resp = salesperson_not_found u)).
Proof.
  intros resp. subst resp.
  pose proof (route_ingest_leads_cases d req) as Hc.
  destruct (payload req !! "file") as [f|] eqn:Hf.
  - destruct (csv_rows f) as [rows|] eqn:Hrows.
    + pose proof (ingest_rows_outcome rows (fresh_session d)) as Ho.
      destruct (ingest_rows rows (fresh_session d)) as [[[resp|]|e] s]; rewrite Hc; simpl.
      * destruct Ho as (_ & row & u & Hin & Hu & ->). right.
        split; [reflexivity|]. split; [reflexivity|]. right.
        exists f, rows, row, u. auto.
      * now left.
      * right. auto.
    + destruct Hc as [e ->]. right. simpl. auto.
  - destruct Hc as [e ->]. right. simpl. auto.
Qed.

(** ** Commit *)

Lemma max_fold_nonneg (ks : list Z) : 0 <= fold_right Z.max 0 ks.
Proof. induction ks; simpl; lia. Qed.

Lemma max_fold_upper (ks : list Z) (k : Z) :
  In k ks -> k <= fold_right Z.max 0 ks.
Proof.
  induction ks as [|x ks IH]; simpl; [tauto|].
  intros [->|Hin]; [lia|]. specialize (IH Hin). lia.
Qed.

Lemma max_fold_snoc (ks : list Z) (k : Z) :
  fold_right Z.max 0 (ks ++ [k]) = Z.max (fold_right Z.max 0 ks) (Z.max k 0).
Proof. induction ks as [|x ks IH]; simpl; [lia|]. rewrite IH. lia. Qed.

Lemma key_bound_insert_lead (d : Database) (l : NewLead) :
  key_bound (insert_lead d l) = key_bound d + 1.
Proof.
  unfold key_bound, insert_lead, next_key. simpl.
  rewrite map_app. simpl. rewrite max_fold_snoc.
  pose proof (max_fold_nonneg (map Lead_id (leads_table d))). lia.
Qed.

Lemma foreign_keys_bounded (d : Database) :
  foreign_keys_hold d ->
  forall a, In a (salesperson_leads d) -> snd a <= key_bound d.
Proof. intros Hfk a Ha. apply max_fold_upper, Hfk, Ha. Qed.

(** What flushing the session's new leads does to the tables: one row
    per lead, with the lead's columns and a key above every earlier key,
    and as association rows for that key exactly the lead's
    [salespersons]. *)
Lemma commit_spec (ls : list NewLead) : forall d : Database,
  (forall a, In a (salesperson_leads d) -> snd a <= key_bound d) ->
  exists created,
    leads_table (fold_left insert_lead ls d) = leads_table d ++ created /\
    salespersons_table (fold_left insert_lead ls d) = salespersons_table d /\
    List.NoDup (map Lead_id created) /\
    (forall a, snd a <= key_bound d ->
       (In a (salesperson_leads (fold_left insert_lead ls d)) <->
        In a (salesperson_leads d))) /\
    Forall2 (fun l c =>
               columns c = new_columns l /\ key_bound d < Lead_id c /\
               forall k, In (k, Lead_id c) (salesperson_leads (fold_left insert_lead ls d))
                         <-> In k (map Salesperson_id (salespersons l)))
            ls created.
Proof.
  induction ls as [|l ls IH]; intros d Hwf; simpl.
  - exists []. rewrite app_nil_r. repeat split; auto using List.NoDup_nil.
  - set (d1 := insert_lead d l).
    assert (Hb1 : key_bound d1 = key_bound d + 1) by apply key_bound_insert_lead.
    assert (Hk : next_key (map Lead_id (leads_table d)) = key_bound d + 1)
      by (unfold next_key, key_bound; lia).
    assert (Ha1 : forall a, In a (salesperson_leads d1) <->
                            In a (salesperson_leads d) \/
                            (snd a = key_bound d + 1 /\
                             In (fst a) (map Salesperson_id (salespersons l)))).
    { intros [k j]. unfold d1, insert_lead. simpl. rewrite Hk, in_app_iff, !in_map_iff.
      split.
      - intros [?|(sp & [= <- <-] & Hsp)]; [now left|]. right. eauto.
      - intros [?|[-> (sp & <- & Hsp)]]; [now left|]. right. eauto. }
    assert (Hwf1 : forall a, In a (salesperson_leads d1) -> snd a <= key_bound d1).
    { intros a Ha. apply Ha1 in Ha as [Ha|[Ha _]]; [apply Hwf in Ha|]; lia. }
    destruct (IH d1 Hwf1) as (created & Hleads & Hsps & Hnd & Hold & Hnew).
    exists ({| Lead_id := key_bound d + 1; columns := new_columns l |} :: created).
    split; [|split; [|split; [|split]]].
    + rewrite Hleads. unfold d1, insert_lead. simpl.
      now rewrite Hk, <- app_assoc.
    + now rewrite Hsps.
    + simpl. constructor; [|assumption].
      intros Hin. apply in_map_iff in Hin as (c & Hc & Hin).
      assert (Hlt : key_bound d1 < Lead_id c).
      { clear - Hnew Hin. induction Hnew as [|? ? ? ? Hh _ IHn]; simpl in Hin; [tauto|].
        destruct Hin as [<-|Hin]; [apply Hh|auto]. }
      lia.
    + intros a Ha. rewrite (Hold a) by lia. rewrite Ha1.
      split; [intros [?|[? _]]; [assumption|lia] | auto].
    + constructor.
      * split; [reflexivity|]. split; [simpl; lia|]. intros k. simpl.
        rewrite (Hold (k, key_bound d + 1)) by (simpl; lia).
        rewrite Ha1. simpl. split.
        -- intros [Hin|[_ Hin]]; [|assumption].
           apply Hwf in Hin. simpl in Hin. lia.
        -- auto.
      * eapply Forall2_impl; [exact Hnew|].
        intros x c (Hc & Hlt & Hk'). split; [assumption|]. split; [lia|assumption].
Qed.

Lemma Forall_exists_Forall2 {A B} (R : A -> B -> Prop) (xs : list A) :
  Forall (fun x => exists y, R x y) xs -> exists ys, Forall2 R xs ys.
Proof.
  induction 1 as [|x xs [y Hy] _ [ys Hys]].
  - exists []. constructor.
  - exists (y :: ys). now constructor.
Qed.

Lemma Forall2_compose {A B C} (R : A -> B -> Prop) (S : B -> C -> Prop)
    (T : A -> C -> Prop) (xs : list A) (ys : list B) :
  (forall x y z, R x y -> S y z -> T x z) ->
  Forall2 R xs ys -> forall zs, Forall2 S ys zs -> Forall2 T xs zs.
Proof.
  intros HT. induction 1 as [|x y xs ys Hxy _ IH]; intros zs Hs; inversion Hs; subst.
  - constructor.
  - constructor; eauto.
Qed.

(** C7: when every row of the CSV is valid, the ingestion succeeds and
    creates exactly one lead row per CSV row, in order, each with a new
    key of its own; the row carries the CSV row's Lead ID, Lead Name and
    Contact Information and the three resolved enum members, and the
    salespersons associated with its key are exactly the one salesperson
    the row's username resolves to. *)
Theorem valid_rows_create_one_lead_each
    (d : Database) (req : Request (gmap string FileStorage))
    (f : FileStorage) (rows : list (gmap string string)) :
  payload req !! "file" = Some f -> csv_rows f = Some rows ->
  Forall (fun row => exists l, valid_row d row l) rows ->
  foreign_keys_hold d ->
  exists created d',
    fst (route_ingest_leads d req) = (ingest_success, d') /\
    salespersons_table d' = salespersons_table d /\
    leads_table d' = leads_table d ++ created /\
    List.NoDup (map Lead_id created) /\
    (forall c, In c created -> ~ In (Lead_id c) (map Lead_id (leads_table d))) /\
    Forall2 (fun row c =>
               exists sp,
                 valid_row d row {| new_columns := columns c; salespersons := [sp] |} /\
                 forall k, In (k, Lead_id c) (salesperson_leads d')
                           <-> k = Salesperson_id sp)
            rows created.
Proof.
  intros Hf Hrows Hvalid Hfk.
  destruct (Forall_exists_Forall2 _ _ Hvalid) as [ls Hls].
  destruct (ingest_rows_valid rows ls (fresh_session d) Hls) as (s & E & Hdb & Hp).
  pose proof (route_ingest_leads_cases d req) as Hc.
  rewrite Hf, Hrows, E in Hc. simpl in Hp. rewrite Hp, Hdb in Hc. simpl in Hc.
  destruct (commit_spec ls d (foreign_keys_bounded d Hfk))
    as (created & Hleads & Hsps & Hnd & _ & Hnew).
  exists created, (fold_left insert_lead ls d).
  rewrite Hc. simpl. repeat split; try assumption.
  - intros c Hin Hold. apply max_fold_upper in Hold. fold (key_bound d) in Hold.
    assert (Hlt : key_bound d < Lead_id c).
    { clear - Hnew Hin. induction Hnew as [|? ? ? ? Hh _ IHn]; simpl in Hin; [tauto|].
      destruct Hin as [<-|Hin]; [apply Hh|auto]. }
    lia.
  - eapply Forall2_compose; [|exact Hls|exact Hnew].
    intros row l c Hv (Hcols & _ & Hk).
    destruct Hv as [u sp t1 t2 t3 x1 x2 x3 id nm ci].
    exists sp. simpl in *. rewrite Hcols. split; [econstructor; eassumption|].
    intros k. rewrite Hk. simpl. intuition congruence.
Qed.

Lemma valid_rows_create_one_lead_each_witness :
  let rows := [demo_row "Alice" "cold call" "High" "New";
               demo_row "Bob" "Website" "low" "Qualified"] in
  exists created d',
    fst (route_ingest_leads seed_db (demo_upload rows)) = (ingest_success, d') /\
    leads_table d' = created /\ length created = 2%nat.
Proof.
  intros rows.
  destruct (valid_rows_create_one_lead_each seed_db (demo_upload rows)
              {| csv_rows := Some rows |} rows eq_refl eq_refl)
    as (created & d' & Hr & _ & Hl & _ & _ & H2).
  - repeat constructor.
    + eexists. eapply (valid_row_intro seed_db _ "Alice"); reflexivity.
    + eexists. eapply (valid_row_intro seed_db _ "Bob"); reflexivity.
  - intros a [].
  - exists created, d'. split; [exact Hr|]. split; [exact Hl|].
    apply Forall2_length in H2. now rewrite <- H2.
Defined.

(** ** The lead query *)

Lemma get_salesperson_leads_response (sp : Salesperson) (req : Request LeadsJson)
    (s : Env) :
  exists s', get_salesperson_leads sp req s =
               (Ok (leads_response (db s) sp (payload req)), s') /\ db s' = db s.
Proof.
  unfold get_salesperson_leads, leads_response, paginate. run.
  destruct (filtered_leads (db s) sp (payload req)) as [rows|e]; simpl; [|eauto].
  destruct ((dict_get (j_page (payload req)) 1 <? 1) ||
            (dict_get (j_per_page (payload req)) 10 <? 1)); simpl; [eauto|].
  destruct (pagination rows _ _); simpl; eauto.
Qed.

Section Leads.
Context `{PasswordScheme}.

Lemma route_leads_authenticated (d : Database) (req : Request LeadsJson)
    (sp : Salesperson) :
  authenticated d req sp ->
  fst (route_leads d req) = (leads_response d sp (payload req), d).
Proof.
  intros Ha. unfold route_leads, serve.
  destruct (basic_auth_accepts get_salesperson_leads d req sp Ha) as [u Hu].
  rewrite (Hu {| db := d; pending := []; log := [] |} eq_refl).
  match goal with
  | |- context [get_salesperson_leads sp req ?s] =>
      destruct (get_salesperson_leads_response sp req s) as (s' & -> & Hdb)
  end.
  simpl in *. now rewrite Hdb.
Qed.

End Leads.

Lemma in_joined_leads (d : Database) (sp : Salesperson) (l : Lead) :
  In l (joined_leads d sp) <->
  In l (leads_table d) /\ In (Salesperson_id sp, Lead_id l) (salesperson_leads d).
Proof.
  unfold joined_leads. rewrite in_flat_map. split.
  - intros (l' & Hl' & Hin). apply in_flat_map in Hin as ([k j] & Ha & Hin).
    simpl in Hin.
    destruct (j =? Lead_id l') eqn:Ej; destruct (k =? Salesperson_id sp) eqn:Ek;
      simpl in Hin; try tauto.
    destruct Hin as [<-|[]]. apply Z.eqb_eq in Ej, Ek. subst. auto.
  - intros [Hl Ha]. exists l. split; [assumption|].
    apply in_flat_map. exists (Salesperson_id sp, Lead_id l).
    split; [assumption|]. simpl. rewrite !Z.eqb_refl. simpl. auto.
Qed.

Lemma in__In {E} `{PyEnumEq E} (values : list E) (x : E) :
  in_ values x = true <-> In x values.
Proof.
  unfold in_. rewrite existsb_exists. split.
  - intros (y & Hy & Heq). apply enum_eqb_eq in Heq. now subst.
  - intros Hin. exists x. split; [assumption|]. now apply enum_eqb_eq.
Qed.

(** A filter whose texts all resolve keeps the rows whose column is among
    the resolved members; an empty list of texts keeps every row. *)
Lemma filter_by_enum_ok {E} `{PyEnumEq E} (column : Lead -> E)
    (texts : list string) (values : list E) (query : list Lead) :
  comprehension (get_enum_value E) texts = Ok values ->
  exists rows,
    filter_by_enum E column texts query = Ok rows /\
    forall l, In l rows <-> In l query /\ (texts = [] \/ In (column l) values).
Proof.
  intros Hc. unfold filter_by_enum. destruct texts as [|t texts].
  - exists query. split; [reflexivity|]. intuition.
  - rewrite Hc. eexists. split; [reflexivity|].
    intros l. rewrite List.filter_In, in__In. intuition discriminate.
Qed.

Lemma filter_by_enum_raise {E} `{PyEnum E} (column : Lead -> E)
    (texts : list string) (query : list Lead) (e : exn) :
  filter_by_enum E column texts query = Raise e ->
  exists v, In v texts /\ get_enum_value E v = Raise e.
Proof.
  unfold filter_by_enum. destruct texts as [|t texts]; [discriminate|].
  destruct (comprehension _ _) eqn:Hc; [discriminate|].
  intros [= <-]. now apply comprehension_raise.
Qed.

Lemma filter_by_enum_invalid {E} `{PyEnum E} (column : Lead -> E)
    (texts : list string) (query : list Lead) (v : string) :
  In v texts -> is_ok (get_enum_value E v) = false ->
  exists e, filter_by_enum E column texts query = Raise e.
Proof.
  intros Hin Hv. unfold filter_by_enum.
  destruct texts as [|t texts]; [destruct Hin|].
  destruct (comprehension_some_raise _ _ _ Hin Hv) as [e ->]. eauto.
Qed.



Lemma get_salesperson_leads_defaults (sp : Salesperson) (req : Request LeadsJson) :
  get_salesperson_leads sp req =
  get_salesperson_leads sp
    (with_paging (dict_get (j_page (payload req)) 1)
                 (dict_get (j_per_page (payload req)) 10) req).
Proof. reflexivity. Qed.

Lemma alice_authenticated (d : Database) (data : LeadsJson) :
  salespersons_table d = salespersons_table seed_db ->
  authenticated d (demo_query "Alice" "pass123" data) alice.
Proof.
  intros Hd. exists {| auth_username := Some "Alice"; auth_password := Some "pass123" |},
    "Alice", "pass123".
  unfold known. rewrite Hd. repeat split; try reflexivity; discriminate.
Qed.

Section LeadsClaims.
Context `{PasswordScheme}.

(** C4: an omitted [page] is 1 and an omitted [per_page] is 10 (the
    request is answered as the same request with the defaults written
    out); and for an authenticated request with [page] 1 and [per_page]
    10 whose filters fifteen leads match, the response is 200 with the
    first ten of them, [total_pages] 2 and [total_leads] 15. *)
Theorem leads_default_paging_and_first_page
    (d : Database) (req : Request LeadsJson) :
  route_leads d req =
    route_leads d (with_paging (dict_get (j_page (payload req)) 1)
                               (dict_get (j_per_page (payload req)) 10) req) /\
  (forall sp rows,
     authenticated d req sp ->
     filtered_leads d sp (payload req) = Ok rows ->
     length rows = 15%nat ->
     j_page (payload req) = Some 1 -> j_per_page (payload req) = Some 10 ->
     fst (fst (route_leads d req)) =
       (jsonify [("leads", JList (map lead_json (firstn 10 rows)));
                 ("total_pages", JInt 2);
                 ("total_leads", JInt 15)], 200) /\
     length (map lead_json (firstn 10 rows)) = 10%nat).
Proof.
  split.
  - unfold route_leads, serve, basic_auth_required.
    change (authorization (with_paging _ _ req)) with (authorization req).
    destruct (authorization req) as [a|]; [|reflexivity].
    destruct (falsy (auth_username a) || falsy (auth_password a)); [reflexivity|].
    unfold mbind, M_bind.
    destruct (query_salesperson _ _) as [[[sp|]|e] s]; reflexivity.
  - intros sp rows Ha Hrows Hlen Hp Hpp.
    rewrite (route_leads_authenticated d req sp Ha). simpl.
    unfold leads_response. rewrite Hrows, Hp, Hpp. simpl.
    do 16 (destruct rows as [|? rows]; try discriminate).
    split; reflexivity.
Qed.


End LeadsClaims.

Lemma leads_default_paging_and_first_page_witness :
  let req := demo_query "Alice" "pass123" (no_filters (Some 1) (Some 10)) in
  exists its,
    fst (fst (route_leads demo_db15 req)) =
      (jsonify [("leads", JList its); ("total_pages", JInt 2);
                ("total_leads", JInt 15)], 200) /\
    length its = 10%nat.
Proof.
  intros req.
  destruct (proj2 (leads_default_paging_and_first_page demo_db15 req)
              alice (joined_leads demo_db15 alice)) as [Hr Hl].
  - apply alice_authenticated. reflexivity.
  - reflexivity.
  - reflexivity.
  - reflexivity.
  - reflexivity.
  - eexists. split; [exact Hr|exact Hl].
Defined.


Section LeadsErrors.
Context `{PasswordScheme}.

Lemma filtered_leads_raise (d : Database) (sp : Salesperson) (data : LeadsJson)
    (e : exn) :
  filtered_leads d sp data = Raise e ->
  exists enum v, invalid_filter data enum v /\
    e = ValueError ("Invalid value for " +:+ enum +:+ ": " +:+ v).
Proof.
  unfold filtered_leads, invalid_filter.
  destruct (filter_by_enum Source _ _ _) as [q1|e1] eqn:E1.
  - destruct (filter_by_enum InterestLevel _ _ _) as [q2|e2] eqn:E2.
    + intros E3. apply filter_by_enum_raise in E3 as (v & Hin & Hv).
      exists "Status", v. split; [|exact (get_enum_value_raise Status v e Hv)].
      right. right. rewrite Hv. auto.
    + intros [= <-]. apply filter_by_enum_raise in E2 as (v & Hin & Hv).
      exists "InterestLevel", v.
      split; [|exact (get_enum_value_raise InterestLevel v e2 Hv)].
      right. left. rewrite Hv. auto.
  - intros [= <-]. apply filter_by_enum_raise in E1 as (v & Hin & Hv).
    exists "Source", v. split; [|exact (get_enum_value_raise Source v e1 Hv)].
    left. rewrite Hv. auto.
Qed.

Lemma filtered_leads_invalid (d : Database) (sp : Salesperson) (data : LeadsJson)
    (enum v : string) :
  invalid_filter data enum v -> exists e, filtered_leads d sp data = Raise e.
Proof.
  unfold filtered_leads.
  intros [(_ & Hin & Hv)|[(_ & Hin & Hv)|(_ & Hin & Hv)]].
  - destruct (filter_by_enum_invalid (fun l => source (columns l)) _
                (joined_leads d sp) v Hin Hv) as [e ->]. eauto.
  - destruct (filter_by_enum Source _ _ _) as [q1|e1]; [|eauto].
    destruct (filter_by_enum_invalid (fun l => interest_level (columns l)) _
                q1 v Hin Hv) as [e ->]. eauto.
  - destruct (filter_by_enum Source _ _ _) as [q1|e1]; [|eauto].
    destruct (filter_by_enum InterestLevel _ _ _) as [q2|e2]; [|eauto].
    destruct (filter_by_enum_invalid (fun l => status (columns l)) _
                q2 v Hin Hv) as [e ->]. eauto.
Qed.

(** C6: an authenticated [/leads] request with a filter text that does
    not resolve gets 400; the body has the two fields [error] and
    [details], the details read "Invalid value for <enumeration>:
    <text>" for an unresolvable filter text of the request as it was
    sent, and the body has no [leads] field. *)
Theorem invalid_filter_rejected
    (d : Database) (req : Request LeadsJson) (sp : Salesperson) :
  authenticated d req sp ->
  (exists enum v, invalid_filter (payload req) enum v) ->
  exists enum v,
    invalid_filter (payload req) enum v /\
    fst (fst (route_leads d req)) =
      (jsonify [("error", JStr "Failed to retrieve leads");
                ("details", JStr ("Invalid value for " +:+ enum +:+ ": " +:+ v))],
       400) /\
    has_field "leads" (fst (fst (fst (route_leads d req)))) = false /\
    mentions v (fst (fst (fst (route_leads d req)))) = true.
Proof.
  intros Ha (enum0 & v0 & Hinv).
  destruct (filtered_leads_invalid d sp (payload req) enum0 v0 Hinv) as [e He].
  destruct (filtered_leads_raise d sp (payload req) e He) as (enum & v & Hv & ->).
  exists enum, v. split; [assumption|].
  rewrite (route_leads_authenticated d req sp Ha). simpl.
  unfold leads_response. rewrite He.
  split; [reflexivity|]. split; [reflexivity|].
  unfold leads_failure, mentions, jsonify, str_exn. cbn [fst snd existsb].
  rewrite (contains_append_r v "Invalid value for " (enum +:+ ": " +:+ v))
    by (do 2 apply contains_append_r; apply contains_refl).
  apply orb_true_r.
Qed.

End LeadsErrors.

Lemma invalid_filter_rejected_witness :
  let req := demo_query "Alice" "pass123"
               {| j_source := None; j_interest_level := None;
                  j_status := Some ["Closed"; "on hold"];
                  j_page := None; j_per_page := None |} in
  fst (fst (route_leads demo_db15 req)) =
    (jsonify [("error", JStr "Failed to retrieve leads");
              ("details", JStr "Invalid value for Status: on hold")], 400).
Proof.
  intros req.
  destruct (invalid_filter_rejected demo_db15 req alice) as (enum & v & _ & Hr & _).
  - apply alice_authenticated. reflexivity.
  - exists "Status", "on hold". right. right.
    split; [reflexivity|]. split; [right; left; reflexivity|reflexivity].
  - reflexivity.
Defined.

Section LeadsPaging.
Context `{PasswordScheme}.




End LeadsPaging.



(** * Further properties *)

(** ** Enumerations and filter texts *)

Lemma getitem_ok_name (E : Type) `{PyEnum E} (key : string) (m : E) :
  getitem E key = Ok m -> name m = key.
Proof.
  unfold getitem. destruct (List.find _ _) as [x|] eqn:Hf; [|discriminate].
  intros [= ->]. apply List.find_some in Hf as [_ Hf]. now apply String.eqb_eq.
Qed.

Lemma get_enum_value_ok_iff (E : Type) `{PyEnum E} (t : string) (m : E) :
  get_enum_value E t = Ok m <-> getitem E (spec_normalize t) = Ok m.
Proof.
  unfold get_enum_value, spec_normalize.
  destruct (getitem E _) as [x|e]; [tauto|].
  split; [|discriminate]. now destruct e.
Qed.

Lemma upper_without_space (t : string) :
  Str.has_char " " (Str.upper t) = false -> Str.replace " " "_" t = t.
Proof.
  induction t as [|c t IH]; simpl; [reflexivity|].
  destruct (Ascii.eqb c " ") eqn:E.
  - apply Ascii.eqb_eq in E. subst c. discriminate.
  - intros Hc. apply orb_false_elim in Hc as [_ Hc]. now rewrite IH.
Qed.

Lemma InterestLevel_names_spaceless (m : InterestLevel) :
  Str.has_char " " (name m) = false.
Proof. destruct m; reflexivity. Qed.

Lemma Status_names_spaceless (m : Status) : Str.has_char " " (name m) = false.
Proof. destruct m; reflexivity. Qed.

(** X1: every member's label, and every member's name, resolves back to
    that member as a filter text: what a [/leads] response shows for a
    lead can be sent back as a filter value. *)
Theorem enum_labels_round_trip :
  (forall m : Source,
     get_enum_value Source (value m) = Ok m /\ get_enum_value Source (name m) = Ok m) /\
  (forall m : InterestLevel,
     get_enum_value InterestLevel (value m) = Ok m /\
     get_enum_value InterestLevel (name m) = Ok m) /\
  (forall m : Status,
     get_enum_value Status (value m) = Ok m /\ get_enum_value Status (name m) = Ok m).
Proof. repeat split; destruct m; reflexivity. Qed.

(** X2: a filter text resolves to a member exactly when the text, with
    spaces turned into underscores and uppercased, is that member's name;
    any other text raises the [ValueError] that quotes it unchanged. *)
Theorem get_enum_value_accepts_normalized_names (t : string) :
  (forall m : Source, get_enum_value Source t = Ok m <-> spec_normalize t = name m) /\
  (forall m : InterestLevel,
     get_enum_value InterestLevel t = Ok m <-> spec_normalize t = name m) /\
  (forall m : Status, get_enum_value Status t = Ok m <-> spec_normalize t = name m) /\
  (forall (E : Type) (HE : PyEnum E),
     is_ok (get_enum_value E t) = false ->
     get_enum_value E t =
       Raise (ValueError ("Invalid value for " +:+ enum_name +:+ ": " +:+ t))).
Proof.
  split; [|split; [|split]].
  - intros m. rewrite get_enum_value_ok_iff. split.
    + intros Hg. symmetry. exact (getitem_ok_name Source _ m Hg).
    + intros ->. apply getitem_name_Source.
  - intros m. rewrite get_enum_value_ok_iff. split.
    + intros Hg. symmetry. exact (getitem_ok_name InterestLevel _ m Hg).
    + intros ->. apply getitem_name_InterestLevel.
  - intros m. rewrite get_enum_value_ok_iff. split.
    + intros Hg. symmetry. exact (getitem_ok_name Status _ m Hg).
    + intros ->. apply getitem_name_Status.
  - intros E HE Hbad. destruct (get_enum_value E t) as [m|e] eqn:Hg; [discriminate|].
    now rewrite (get_enum_value_raise E t e Hg).
Qed.

Lemma get_enum_value_accepts_normalized_names_witness :
  get_enum_value Source "cold_call" = Ok COLD_CALL /\
  get_enum_value Status "on hold" = Raise (ValueError "Invalid value for Status: on hold").
Proof.
  split.
  - apply (proj1 (get_enum_value_accepts_normalized_names "cold_call") COLD_CALL).
    reflexivity.
  - apply (proj2 (proj2 (proj2 (get_enum_value_accepts_normalized_names "on hold")))
             Status Status_enum).
    reflexivity.
Defined.

(** X3: the ingestion loop and the filter helper accept the same texts
    and resolve them to the same members, for each of the three
    enumerations, although the loop replaces spaces only for Source. *)
Theorem ingest_and_filter_accept_same_texts (t : string) :
  (forall m : Source, ingest_source t = Ok m <-> get_enum_value Source t = Ok m) /\
  (forall m : InterestLevel,
     ingest_interest_level t = Ok m <-> get_enum_value InterestLevel t = Ok m) /\
  (forall m : Status, ingest_status t = Ok m <-> get_enum_value Status t = Ok m).
Proof.
  split; [|split]; intros m; rewrite get_enum_value_ok_iff.
  - reflexivity.
  - unfold ingest_interest_level, spec_normalize. split; intros Hg.
    + pose proof (getitem_ok_name InterestLevel _ m Hg) as Hn.
      rewrite upper_without_space; [assumption|].
      rewrite <- Hn. apply InterestLevel_names_spaceless.
    + pose proof (getitem_ok_name InterestLevel _ m Hg) as Hn.
      rewrite upper_replace_without_underscore in Hg; [assumption|].
      rewrite <- Hn. apply InterestLevel_names_plain.
  - unfold ingest_status, spec_normalize. split; intros Hg.
    + pose proof (getitem_ok_name Status _ m Hg) as Hn.
      rewrite upper_without_space; [assumption|].
      rewrite <- Hn. apply Status_names_spaceless.
    + pose proof (getitem_ok_name Status _ m Hg) as Hn.
      rewrite upper_replace_without_underscore in Hg; [assumption|].
      rewrite <- Hn. apply Status_names_plain.
Qed.

(** ** Login and authentication *)

Section AccessProperties.
Context `{PasswordScheme}.

Lemma falsy_false_text (x : option string) :
  falsy x = false -> exists s, x = Some s /\ s <> "".
Proof.
  destruct x as [s|]; simpl; [|discriminate].
  intros Hs. exists s. split; [reflexivity|]. now apply String.eqb_neq.
Qed.

Lemma leads_response_status (d : Database) (sp : Salesperson) (data : LeadsJson) :
  snd (leads_response d sp data) = 200 \/ snd (leads_response d sp data) = 400.
Proof.
  unfold leads_response.
  destruct (filtered_leads d sp data); [|now right].
  destruct (_ || _); [now right|].
  destruct (pagination _ _ _); [now left|now right].
Qed.

(** Either the request is authenticated, or the decorator answers 401
    and leaves the database alone. *)
Lemma route_leads_auth_cases (d : Database) (req : Request LeadsJson) :
  (exists sp, authenticated d req sp) \/
  ((forall sp, ~ authenticated d req sp) /\
   status_of (route_leads d req) = 401 /\
   database_after (route_leads d req) = d).
Proof.
  unfold route_leads, serve, status_of, database_after, basic_auth_required.
  destruct (authorization req) as [a|] eqn:Ha.
  - destruct (falsy (auth_username a)) eqn:Fu.
    + right. simpl. split; [|auto].
      intros sp (a' & u & p & Ha' & Hu & _ & Hu' & _).
      assert (a' = a) by congruence. subst a'. rewrite Hu in Fu.
      simpl in Fu. now apply String.eqb_eq in Fu.
    + destruct (falsy (auth_password a)) eqn:Fp.
      * right. simpl. split; [|auto].
        intros sp (a' & u & p & Ha' & _ & Hp & _ & Hp' & _).
        assert (a' = a) by congruence. subst a'. rewrite Hp in Fp.
        simpl in Fp. now apply String.eqb_eq in Fp.
      * destruct (falsy_false_text _ Fu) as (u & Hu & Hu').
        destruct (falsy_false_text _ Fp) as (p & Hp & Hp').
        rewrite Hu, Hp. run.
        destruct (known d u) as [sp|] eqn:Hk; simpl.
        -- destruct (check_password_hash (password_hash sp) p) eqn:Hc; simpl.
           ++ left. exists sp, a, u, p. auto 10.
           ++ right. split; [|auto].
              intros sp' (a' & u' & p' & Ha' & Hu2 & Hp2 & _ & _ & Hk' & Hc').
              assert (a' = a) by congruence. subst a'.
              assert (u' = u) by congruence. assert (p' = p) by congruence.
              subst. congruence.
        -- right. split; [|auto].
           intros sp' (a' & u' & p' & Ha' & Hu2 & _ & _ & _ & Hk' & _).
           assert (a' = a) by congruence. subst a'.
           assert (u' = u) by congruence. subst. congruence.
  - right. simpl. split; [|auto].
    intros sp (a & u & p & Ha' & _). congruence.
Qed.

(** X4: every [/leads] request is answered with status 200, 400 or 401,
    so no exception leaves the decorated view; the status is 401 exactly
    when the request is not authenticated; and the committed database is
    the same after the request, whatever the request is. *)
Theorem leads_route_statuses_and_read_only (d : Database) (req : Request LeadsJson) :
  (status_of (route_leads d req) = 200 \/
   status_of (route_leads d req) = 400 \/
   status_of (route_leads d req) = 401) /\
  (status_of (route_leads d req) = 401 <-> ~ exists sp, authenticated d req sp) /\
  database_after (route_leads d req) = d.
Proof.
  destruct (route_leads_auth_cases d req) as [[sp Ha] | (Hno & Hst & Hdb)].
  - pose proof (route_leads_authenticated d req sp Ha) as Hr.
    pose proof (leads_response_status d sp (payload req)) as Hs.
    unfold status_of, database_after.
    destruct (route_leads d req) as [[resp d'] evs]. simpl in *.
    injection Hr as -> ->. split; [tauto|]. split; [|reflexivity].
    split.
    + intros H401. rewrite H401 in Hs. destruct Hs; discriminate.
    + intros Hn. exfalso. apply Hn. eauto.
  - split; [auto|]. split; [|assumption].
    split; [|auto]. intros _ [sp Ha]. exact (Hno sp Ha).
Qed.

(** The response of [/login], by cases. *)
Lemma route_login_cases (d : Database) (req : Request LoginJson) :
  route_login d req =
  (match j_username (payload req) with
   | None => (jsonify [("error", JStr "Invalid credentials")], 401)
   | Some u =>
       match known d u with
       | None => (jsonify [("error", JStr "Invalid credentials")], 401)
       | Some sp =>
           match j_password (payload req) with
           | None =>
               (jsonify [("error", JStr "Failed to login");
                         ("details",
                          JStr "'NoneType' object has no attribute 'encode'")], 400)
           | Some p =>
               if check_password_hash (password_hash sp) p
               then (jsonify [("message", JStr "Login successful")], 200)
               else (jsonify [("error", JStr "Invalid credentials")], 401)
           end
       end
   end, d, [SELECT_salesperson (j_username (payload req))]).
Proof.
  unfold route_login, serve, login. run.
  destruct (j_username (payload req)) as [u|]; [|reflexivity].
  destruct (known d u) as [sp|]; simpl; [|reflexivity].
  destruct (j_password (payload req)) as [p|]; simpl; [|reflexivity].
  now destruct (check_password_hash _ _).
Qed.

(** X5: [/login] answers 200 exactly when the body carries a username
    that is known and a text password that the stored hash of that
    salesperson accepts; it never changes the database, and it sends the
    single lookup by username and nothing else. *)
Theorem login_succeeds_iff_credentials_accepted (d : Database) (req : Request LoginJson) :
  (status_of (route_login d req) = 200 <->
   exists u p sp,
     j_username (payload req) = Some u /\ j_password (payload req) = Some p /\
     known d u = Some sp /\ check_password_hash (password_hash sp) p = true) /\
  database_after (route_login d req) = d /\
  snd (route_login d req) = [SELECT_salesperson (j_username (payload req))].
Proof.
  rewrite route_login_cases. unfold status_of, database_after. simpl.
  split; [|auto].
  destruct (j_username (payload req)) as [u|].
  - destruct (known d u) as [sp|] eqn:Hk.
    + destruct (j_password (payload req)) as [p|].
      * destruct (check_password_hash (password_hash sp) p) eqn:Hc; simpl.
        -- split; [|reflexivity]. intros _. exists u, p, sp. auto.
        -- split; [discriminate|].
           intros (u' & p' & sp' & [= <-] & [= <-] & Hk' & Hc'). congruence.
      * simpl. split; [discriminate|]. intros (? & ? & ? & _ & Hp & _). discriminate.
    + simpl. split; [discriminate|].
      intros (u' & ? & ? & [= <-] & _ & Hk' & _). congruence.
  - simpl. split; [discriminate|]. intros (? & ? & ? & Hu & _). discriminate.
Qed.

(** X6: a salesperson whose password was set with [set_password] logs in
    with that password: when the lookup by username returns the record
    that [set_password] produced, [/login] answers 200 with the success
    message. *)
Theorem set_password_then_login (d : Database) (sp0 : Salesperson) (u p : string) :
  known d u = Some (set_password sp0 p) ->
  response_of (route_login d (demo_login (Some u) (Some p))) =
    (jsonify [("message", JStr "Login successful")], 200).
Proof.
  intros Hk. rewrite route_login_cases. unfold response_of. simpl.
  rewrite Hk. simpl. now rewrite check_generated.
Qed.

End AccessProperties.

Lemma set_password_then_login_witness :
  response_of (route_login seed_db (demo_login (Some "Charlie") (Some "pass123"))) =
    (jsonify [("message", JStr "Login successful")], 200).
Proof.
  apply (set_password_then_login seed_db
           {| Salesperson_id := 3; username := "Charlie"; password_hash := "" |}
           "Charlie" "pass123").
  reflexivity.
Defined.

(** ** Ingestion as a transaction *)

Lemma commit_appends (ls : list NewLead) : forall d : Database,
  exists created pairs,
    leads_table (fold_left insert_lead ls d) = leads_table d ++ created /\
    map columns created = map new_columns ls /\
    salesperson_leads (fold_left insert_lead ls d) = salesperson_leads d ++ pairs /\
    salespersons_table (fold_left insert_lead ls d) = salespersons_table d.
Proof.
  induction ls as [|l ls IH]; intros d; simpl.
  - exists [], []. now rewrite !app_nil_r.
  - destruct (IH (insert_lead d l)) as (created & pairs & Hl & Hc & Ha & Hs).
    exists ({| Lead_id := next_key (map Lead_id (leads_table d));
               columns := new_columns l |} :: created),
           (map (fun sp => (Salesperson_id sp, next_key (map Lead_id (leads_table d))))
                (salespersons l) ++ pairs).
    rewrite Hl, Ha, Hs. unfold insert_lead. cbn [leads_table salesperson_leads salespersons_table].
    rewrite <- !app_assoc. cbn [map app]. rewrite Hc. auto.
Qed.

(** How a request to [/ingest_leads] can end. *)
Lemma route_ingest_leads_outcome (d : Database) (req : Request (gmap string FileStorage)) :
  (response_of (route_ingest_leads d req) = ingest_success /\
   exists f rows ls,
     payload req !! "file" = Some f /\ csv_rows f = Some rows /\
     Forall2 (valid_row d) rows ls /\
     database_after (route_ingest_leads d req) = fold_left insert_lead ls d) \/
  (status_of (route_ingest_leads d req) = 400 /\
   database_after (route_ingest_leads d req) = d).
Proof.
  unfold response_of, status_of, database_after.
  pose proof (route_ingest_leads_cases d req) as Hc.
  destruct (payload req !! "file") as [f|] eqn:Hf.
  - destruct (csv_rows f) as [rows|] eqn:Hrows.
    + pose proof (ingest_rows_outcome rows (fresh_session d)) as Ho.
      destruct (ingest_rows rows (fresh_session d)) as [[[resp|]|e] s]; rewrite Hc.
      * destruct Ho as (Hdb & _ & u & _ & _ & ->). right. auto.
      * destruct Ho as (Hdb & ls & Hls & Hp). left. split; [reflexivity|].
        exists f, rows, ls. cbn [fresh_session db pending app fst snd] in *.
        rewrite Hp, Hdb. auto.
      * right. auto.
    + destruct Hc as [e ->]. right. auto.
  - destruct Hc as [e ->]. right. auto.
Qed.

(** X7: ingestion is all or nothing, and it only appends.  Either the
    response is the 201 success message, every row of the upload is
    valid, the salespersons table is unchanged and the old rows of
    [leads] and of the association table are followed by the new ones,
    one new lead per CSV row; or the status is 400 and the committed
    database is exactly the old one. *)
Theorem ingestion_all_or_nothing (d : Database) (req : Request (gmap string FileStorage)) :
  (response_of (route_ingest_leads d req) = ingest_success /\
   exists f rows created pairs,
     payload req !! "file" = Some f /\ csv_rows f = Some rows /\
     Forall (fun row => exists l, valid_row d row l) rows /\
     salespersons_table (database_after (route_ingest_leads d req)) =
       salespersons_table d /\
     leads_table (database_after (route_ingest_leads d req)) =
       leads_table d ++ created /\
     length created = length rows /\
     salesperson_leads (database_after (route_ingest_leads d req)) =
       salesperson_leads d ++ pairs) \/
  (status_of (route_ingest_leads d req) = 400 /\
   database_after (route_ingest_leads d req) = d).
Proof.
  destruct (route_ingest_leads_outcome d req)
    as [(Hr & f & rows & ls & Hf & Hrows & Hls & Hd)|Hfail]; [left|now right].
  split; [assumption|]. rewrite Hd.
  destruct (commit_appends ls d) as (created & pairs & Hl & Hc & Ha & Hs).
  exists f, rows, created, pairs. repeat split; try assumption.
  - clear - Hls. induction Hls; constructor; eauto.
  - apply Forall2_length in Hls.
    rewrite Hls, <- (length_map columns), Hc, length_map. reflexivity.
Qed.

Lemma insert_lead_integrity (d : Database) (l : NewLead) (sp : Salesperson) :
  integrity d -> salespersons l = [sp] -> In sp (salespersons_table d) ->
  integrity (insert_lead d l).
Proof.
  intros (Hkeys & Hpairs & Hfk) Hl Hsp. unfold integrity, insert_lead.
  cbn [leads_table salesperson_leads salespersons_table].
  rewrite Hl, map_app. cbn [map].
  set (k := next_key (map Lead_id (leads_table d))).
  assert (Hfresh : forall j, In j (map Lead_id (leads_table d)) -> j < k).
  { intros j Hj. apply max_fold_upper in Hj. unfold k, next_key. lia. }
  split; [|split].
  - apply List.NoDup_app; [assumption|repeat constructor; simpl; tauto|].
    intros j Hj [E|[]]. simpl in E. specialize (Hfresh _ Hj). lia.
  - apply List.NoDup_app; [assumption|repeat constructor; simpl; tauto|].
    intros a Ha [E|[]]. apply Hfk in Ha as [_ Ha]. subst a. simpl in Ha.
    specialize (Hfresh _ Ha). lia.
  - intros a Ha. apply in_app_iff in Ha as [Ha|[E|[]]].
    + destruct (Hfk a Ha) as [H1 H2]. split; [assumption|].
      apply in_app_iff. now left.
    + subst a. simpl. split; [now apply in_map|]. apply in_app_iff. right. now left.
Qed.

Lemma commit_integrity (ls : list NewLead) : forall d : Database,
  integrity d ->
  Forall (fun l => exists sp, salespersons l = [sp] /\ In sp (salespersons_table d)) ls ->
  integrity (fold_left insert_lead ls d).
Proof.
  induction ls as [|l ls IH]; intros d Hd Hls; simpl; [assumption|].
  inversion Hls as [|? ? (sp & Hl & Hsp) Hrest]; subst.
  apply IH; [now apply (insert_lead_integrity d l sp)|exact Hrest].
Qed.

(** X8: ingestion keeps the integrity constraints of the tables: when
    the keys of [leads] are distinct, the association table holds no
    pair twice and each pair refers to a stored salesperson and a stored
    lead, the same holds of the database after any request to
    [/ingest_leads]. *)
Theorem ingestion_preserves_integrity
    (d : Database) (req : Request (gmap string FileStorage)) :
  integrity d -> integrity (database_after (route_ingest_leads d req)).
Proof.
  intros Hd.
  destruct (route_ingest_leads_outcome d req)
    as [(_ & f & rows & ls & _ & _ & Hls & ->)|[_ ->]]; [|assumption].
  apply commit_integrity; [assumption|].
  clear - Hls. induction Hls as [|row l rows ls Hv _ IH]; constructor; [|assumption].
  destruct Hv as [u sp ? ? ? ? ? ? ? ? ? _ Hk]. exists sp.
  split; [reflexivity|]. apply (known_In d u sp Hk).
Qed.

Lemma ingestion_preserves_integrity_witness :
  integrity (database_after (route_ingest_leads seed_db
    (demo_upload [demo_row "Alice" "cold call" "High" "New";
                  demo_row "Alice" "Event" "Low" "Closed"]))).
Proof.
  apply ingestion_preserves_integrity.
  split; [constructor|]. split; [constructor|]. intros a [].
Defined.

Lemma Forall2_with_In_right {A B} (R : A -> B -> Prop) (xs : list A) (ys : list B) :
  Forall2 R xs ys -> Forall2 (fun x y => R x y /\ In y ys) xs ys.
Proof.
  induction 1 as [|x y xs ys Hxy _ IH]; constructor.
  - split; [assumption|now left].
  - eapply Forall2_impl; [exact IH|]. intros a b [? ?]. split; [assumption|now right].
Qed.

(** X9: what is ingested can be queried.  After a successful ingestion
    into a database whose association rows refer to stored leads, the
    lead made from a CSV row is among the leads joined to a salesperson
    exactly when that salesperson has the key of the one the row's
    username resolves to; and for the leads that were stored before,
    each salesperson's joined leads are what they were. *)
Theorem ingested_leads_visible_to_their_salesperson
    (d d' : Database) (req : Request (gmap string FileStorage))
    (f : FileStorage) (rows : list (gmap string string)) :
  payload req !! "file" = Some f -> csv_rows f = Some rows ->
  foreign_keys_hold d ->
  fst (route_ingest_leads d req) = (ingest_success, d') ->
  exists created,
    leads_table d' = leads_table d ++ created /\
    Forall2 (fun row c =>
               exists u sp0,
                 row !! "Assigned Salesperson" = Some u /\ known d u = Some sp0 /\
                 forall sp, In c (joined_leads d' sp)
                            <-> Salesperson_id sp = Salesperson_id sp0)
            rows created /\
    (forall sp l, In l (leads_table d) ->
       (In l (joined_leads d' sp) <-> In l (joined_leads d sp))).
Proof.
  intros Hf Hrows Hfk Hok.
  destruct (route_ingest_leads_outcome d req)
    as [(_ & f' & rows' & ls & Hf' & Hrows' & Hls & Hd)|[Hst _]].
  - assert (f' = f) by congruence. subst f'.
    assert (rows' = rows) by congruence. subst rows'.
    assert (Hd' : d' = fold_left insert_lead ls d).
    { unfold database_after in Hd. rewrite Hok in Hd. exact Hd. }
    subst d'.
    destruct (commit_spec ls d (foreign_keys_bounded d Hfk))
      as (created & Hleads & _ & _ & Hold & Hnew).
    exists created. split; [assumption|]. split.
    + eapply Forall2_compose; [|exact Hls|exact (Forall2_with_In_right _ _ _ Hnew)].
      intros row l c Hv ((_ & _ & Hk) & Hin).
      destruct Hv as [u sp0 ? ? ? ? ? ? ? ? ? Hu Hknown].
      exists u, sp0. split; [assumption|]. split; [assumption|].
      intros sp. rewrite in_joined_leads, Hk. simpl. split.
      * intros [_ [E|[]]]. now symmetry.
      * intros E. split; [|now left].
        rewrite Hleads. apply in_app_iff. now right.
    + intros sp l Hl. rewrite !in_joined_leads, Hleads.
      rewrite (Hold (Salesperson_id sp, Lead_id l)).
      * rewrite in_app_iff. tauto.
      * simpl. apply max_fold_upper. now apply in_map.
  - unfold status_of in Hst. rewrite Hok in Hst. discriminate.
Qed.

Lemma ingested_leads_visible_to_their_salesperson_witness :
  let req := demo_upload [demo_row "Bob" "Website" "low" "Qualified"] in
  exists created,
    leads_table (database_after (route_ingest_leads seed_db req)) =
      leads_table seed_db ++ created /\
    length created = 1%nat.
Proof.
  intros req.
  destruct (ingested_leads_visible_to_their_salesperson seed_db
              (database_after (route_ingest_leads seed_db req)) req
              {| csv_rows := Some [demo_row "Bob" "Website" "low" "Qualified"] |}
              [demo_row "Bob" "Website" "low" "Qualified"])
    as (created & Hl & Hrows & _).
  - reflexivity.
  - reflexivity.
  - intros a [].
  - reflexivity.
  - exists created. split; [exact Hl|].
    apply Forall2_length in Hrows. now rewrite <- Hrows.
Defined.

(** X10: the edges of an upload.  Without a [file] part, or with a file
    that is not UTF-8, the answer is 400 with [error] and [details], the
    database is unchanged and the only database round trip is the
    rollback: no lookup was sent.  A CSV without data rows is answered
    with the 201 success message and changes nothing. *)
Theorem upload_edge_cases (d : Database) (req : Request (gmap string FileStorage)) :
  ((payload req !! "file" = None \/
    exists f, payload req !! "file" = Some f /\ csv_rows f = None) ->
   exists e, route_ingest_leads d req = (ingest_failure e, d, [ROLLBACK])) /\
  (forall f, payload req !! "file" = Some f -> csv_rows f = Some [] ->
     route_ingest_leads d req = (ingest_success, d, [COMMIT])).
Proof.
  pose proof (route_ingest_leads_cases d req) as Hc. split.
  - intros [Hf|(f & Hf & Hrows)]; rewrite Hf in Hc; [assumption|].
    now rewrite Hrows in Hc.
  - intros f Hf Hrows. rewrite Hf, Hrows in Hc. exact Hc.
Qed.

Lemma upload_edge_cases_witness :
  (exists e, route_ingest_leads seed_db {| authorization := None; payload := ∅ |} =
               (ingest_failure e, seed_db, [ROLLBACK])) /\
  route_ingest_leads seed_db (demo_upload []) = (ingest_success, seed_db, [COMMIT]).
Proof.
  split.
  - apply (proj1 (upload_edge_cases seed_db {| authorization := None; payload := ∅ |})).
    left. reflexivity.
  - apply (proj2 (upload_edge_cases seed_db (demo_upload []))
             {| csv_rows := Some [] |}); reflexivity.
Defined.

(** ** Pages *)




Section PageProperties.
Context `{PasswordScheme}.


End PageProperties.


(** ** Labels as filters, and the two credential checks *)

Lemma comprehension_label (E : Type) `{PyEnum E} (m : E) :
  get_enum_value E (value m) = Ok m ->
  comprehension (get_enum_value E) [value m] = Ok [m].
Proof. intros Hm. simpl. now rewrite Hm. Qed.

Lemma label_Source (m : Source) : get_enum_value Source (value m) = Ok m.
Proof. destruct m; reflexivity. Qed.

Lemma label_InterestLevel (m : InterestLevel) :
  get_enum_value InterestLevel (value m) = Ok m.
Proof. destruct m; reflexivity. Qed.

Lemma label_Status (m : Status) : get_enum_value Status (value m) = Ok m.
Proof. destruct m; reflexivity. Qed.

(** X12: filtering by the three labels a lead is serialized with always
    resolves, and it selects exactly the salesperson's leads that have
    the same source, interest level and status as that lead; the lead
    itself is among them. *)
Theorem response_labels_select_their_lead
    (d : Database) (sp : Salesperson) (l : Lead) (page per_page : option Z) :
  In l (joined_leads d sp) ->
  exists rows,
    filtered_leads d sp (filter_by_labels l page per_page) = Ok rows /\
    In l rows /\
    forall l', In l' rows <->
      In l' (joined_leads d sp) /\
      source (columns l') = source (columns l) /\
      interest_level (columns l') = interest_level (columns l) /\
      status (columns l') = status (columns l).
Proof.
  intros Hl.
  destruct (filter_by_enum_ok (fun x => source (columns x))
              [value (source (columns l))] [source (columns l)] (joined_leads d sp)
              (comprehension_label Source _ (label_Source _))) as (q1 & E1 & M1).
  destruct (filter_by_enum_ok (fun x => interest_level (columns x))
              [value (interest_level (columns l))] [interest_level (columns l)] q1
              (comprehension_label InterestLevel _ (label_InterestLevel _)))
    as (q2 & E2 & M2).
  destruct (filter_by_enum_ok (fun x => status (columns x))
              [value (status (columns l))] [status (columns l)] q2
              (comprehension_label Status _ (label_Status _))) as (q3 & E3 & M3).
  assert (Hmem : forall l', In l' q3 <->
            In l' (joined_leads d sp) /\
            source (columns l') = source (columns l) /\
            interest_level (columns l') = interest_level (columns l) /\
            status (columns l') = status (columns l)).
  { intros l'. rewrite M3, M2, M1. simpl. split.
    - intros [[[Hin [?|[E|[]]]] [?|[E'|[]]]] [?|[E''|[]]]]; try discriminate. auto.
    - intros (Hin & -> & -> & ->). auto 10. }
  exists q3. split; [|split; [|exact Hmem]].
  - unfold filtered_leads, filter_by_labels.
    cbn [j_source j_interest_level j_status dict_get]. now rewrite E1, E2, E3.
  - apply Hmem. auto.
Qed.

Lemma response_labels_select_their_lead_witness :
  exists l rows,
    nth_error (joined_leads demo_db15 alice) 0 = Some l /\
    filtered_leads demo_db15 alice (filter_by_labels l None None) = Ok rows /\
    In l rows.
Proof.
  destruct (joined_leads demo_db15 alice) as [|l rest] eqn:E; [discriminate|].
  destruct (response_labels_select_their_lead demo_db15 alice l None None)
    as (rows & Hr & Hin & _).
  - rewrite E. now left.
  - exists l, rows. split; [reflexivity|]. split; [exact Hr|exact Hin].
Defined.

Section CredentialChecks.
Context `{PasswordScheme}.

(** X13: for a non-empty username and a non-empty password, [/login]
    and the decorator of [/leads] agree: [/login] answers 200 exactly
    when the decorator lets the request through to the view (the status
    of [/leads] is not 401). *)
Theorem login_and_basic_auth_agree
    (d : Database) (u p : string) (data : LeadsJson) :
  u <> "" -> p <> "" ->
  (status_of (route_login d (demo_login (Some u) (Some p))) = 200 <->
   status_of (route_leads d (demo_query u p data)) <> 401).
Proof.
  intros Hu Hp. rewrite route_login_cases. unfold status_of at 1.
  cbn [fst snd demo_login payload j_username j_password].
  destruct (route_leads_auth_cases d (demo_query u p data))
    as [[sp Ha] | (Hno & Hst & _)].
  - pose proof (route_leads_authenticated d _ sp Ha) as Hr.
    pose proof (leads_response_status d sp data) as Hs.
    destruct Ha as (a & u' & p' & [= <-] & [= <-] & [= <-] & _ & _ & Hk & Hc).
    rewrite Hk, Hc. unfold status_of.
    destruct (route_leads d (demo_query u p data)) as [[resp d'] evs].
    cbn [fst snd] in *. injection Hr as -> _.
    cbn [demo_query payload] in *. split; [|reflexivity].
    intros _ E. rewrite E in Hs. destruct Hs; discriminate.
  - rewrite Hst. split; [|congruence].
    destruct (known d u) as [sp|] eqn:Hk; cbn [snd]; [|discriminate].
    destruct (check_password_hash (password_hash sp) p) eqn:Hc; cbn [snd];
      [|discriminate].
    intros _. exfalso. apply (Hno sp).
    exists {| auth_username := Some u; auth_password := Some p |}, u, p. auto 10.
Qed.

End CredentialChecks.

Lemma login_and_basic_auth_agree_witness :
  status_of (route_login seed_db (demo_login (Some "Bob") (Some "pass123"))) = 200 /\
  status_of (route_leads seed_db (demo_query "Bob" "pass123" (no_filters None None)))
    <> 401.
Proof.
  assert (H200 : status_of (route_login seed_db
                              (demo_login (Some "Bob") (Some "pass123"))) = 200)
    by reflexivity.
  split; [exact H200|].
  apply (proj1 (login_and_basic_auth_agree seed_db "Bob" "pass123"
                  (no_filters None None) ltac:(discriminate) ltac:(discriminate))).
  exact H200.
Defined.
